(** * The audio relay of [examples/play_audio_stream.py]

    A shallow embedding of the buffering, rate-conversion and voice-agent
    client code of the example, and the properties its specification
    states about it.

    - [AudioBuffer]: the sample accumulator of the playback callback.
    - [Queue]: the part of [asyncio.Queue] the relay uses.
    - [VoiceAgentClient]: [connect], [send_audio], [listen_for_responses],
      [disconnect], written in a small state/exception monad.
    - the frame loop of [rtc_session]. *)

From Stdlib Require Import ZArith List Lia Bool String Ascii QArith.
Import ListNotations.

Local Open Scope string_scope.
Local Open Scope list_scope.
Local Open Scope Z_scope.

(** ** Python sequences *)

(** A one-dimensional [int16] array is the list of its samples. *)
Definition sample := Z.
Definition frame := list sample.

Definition len {A : Type} (l : list A) : Z := Z.of_nat (List.length l).

(** Position denoted by a slice bound [n] in a sequence of length [ln]:
    a negative bound counts from the end, and bounds are clamped. *)
Definition slice_bound (ln n : Z) : nat :=
  Z.to_nat (if n <? 0 then Z.max 0 (ln + n) else Z.min n ln).

(** [l[:n]] *)
Definition slice_to {A : Type} (l : list A) (n : Z) : list A :=
  firstn (slice_bound (len l) n) l.

(** [l[n:]] *)
Definition slice_from {A : Type} (l : list A) (n : Z) : list A :=
  skipn (slice_bound (len l) n) l.

(** [np.zeros(n, dtype=np.int16)]; a negative dimension raises [ValueError]. *)
Definition np_zeros (n : Z) : option frame :=
  if n <? 0 then None else Some (repeat 0 (Z.to_nat n)).

(** [chunk[:k] = src] for a [src] of exactly [k] samples, [0 <= k <= len chunk]. *)
Definition assign_prefix (chunk src : frame) : frame :=
  src ++ skipn (List.length src) chunk.

(** ** AudioBuffer *)

Record AudioBuffer := mkAudioBuffer {
  blocksize : Z;
  buffer : frame
}.

Definition BLOCKSIZE : Z := 480.
Definition SAMPLERATE : Z := 48000.
Definition VOICE_AGENT_INPUT_RATE : Z := 16000.
Definition VOICE_AGENT_OUTPUT_RATE : Z := 24000.

(** [AudioBuffer.__init__] *)
Definition AudioBuffer_init (bs : Z) : AudioBuffer :=
  {| blocksize := bs; buffer := [] |}.

Definition set_buffer (b : AudioBuffer) (data : frame) : AudioBuffer :=
  {| blocksize := blocksize b; buffer := data |}.

(** [add_frame]: [self.buffer = np.concatenate([self.buffer, frame_data])] *)
Definition add_frame (b : AudioBuffer) (frame_data : frame) : AudioBuffer :=
  set_buffer b (buffer b ++ frame_data).

(** [get_chunk]: [Some (chunk, b')] when a chunk is returned, [None] for
    Python's [None] (the buffer is then left as it is). *)
Definition get_chunk (b : AudioBuffer) : option (frame * AudioBuffer) :=
  if blocksize b <=? len (buffer b) then
    let chunk := slice_to (buffer b) (blocksize b) in
    Some (chunk, set_buffer b (slice_from (buffer b) (blocksize b)))
  else None.

(** [get_padded_chunk]; [None] when [np.zeros] raises. *)
Definition get_padded_chunk (b : AudioBuffer) : option (frame * AudioBuffer) :=
  if 0 <? len (buffer b) then
    match np_zeros (blocksize b) with
    | None => None
    | Some chunk =>
        let available := Z.min (len (buffer b)) (blocksize b) in
        let chunk := assign_prefix chunk (slice_to (buffer b) available) in
        Some (chunk, set_buffer b (slice_from (buffer b) available))
    end
  else
    match np_zeros (blocksize b) with
    | None => None
    | Some chunk => Some (chunk, b)
    end.

(** A sequence of [add_frame] calls. *)
Definition add_frames (b : AudioBuffer) (frames : list frame) : AudioBuffer :=
  fold_left add_frame frames b.

(** At most [n] successive [get_chunk] calls, stopping at the first [None];
    the chunks obtained, in the order of the calls, and the buffer left. *)
Fixpoint get_chunks (n : nat) (b : AudioBuffer) : list frame * AudioBuffer :=
  match n with
  | O => ([], b)
  | S n' =>
      match get_chunk b with
      | None => ([], b)
      | Some (chunk, b') =>
          let (chunks, b'') := get_chunks n' b' in (chunk :: chunks, b'')
      end
  end.

(** ** Sample conversions *)

(** A [float32]/[float64] sample is represented by the rational it denotes.
    The source performs three operations on such values: the conversion
    from [int16] (exact), the external resampler, and the cast back. *)
Definition float := Q.

(** [a.astype(np.float32)] on an [int16] array. *)
Definition astype_float32 (a : frame) : list float := map inject_Z a.

(** Truncation toward zero. *)
Definition Qtrunc (q : Q) : Z := Z.quot (Qnum q) (Zpos (Qden q)).

(** The 16-bit two's complement value with the bit pattern of [z]. *)
Definition wrap16 (z : Z) : Z := (z + 32768) mod 65536 - 32768.

(** [a.astype(np.int16)] on a float array is NumPy's unchecked cast: the
    C conversion of each element, which drops the fractional part and, as
    compiled on the usual targets (conversion to a 32-bit integer, then the
    low 16 bits), keeps the low bits of values that do not fit.  This is the
    reading for values whose integer part fits in 32 bits. *)
Definition astype_int16_1 (v : float) : sample := wrap16 (Qtrunc v).
Definition astype_int16 (a : list float) : frame := map astype_int16_1 a.

(** Saturation to the [int16] range ([np.clip(v, -32768, 32767)]), which
    the specification speaks of. *)
Definition clip16 (z : Z) : Z := Z.max (-32768) (Z.min 32767 z).

(** [int(a / b)] for non-negative integers [a], [b]: Python's true division
    of integers is correctly rounded, so for quotients below [2^52] the
    truncated float is the truncated exact quotient. *)
Definition py_int_truediv (a b : Z) : Z := Z.quot a b.

(** Nearest integer to [a / b] ([b > 0]), ties to even as Python's [round]. *)
Definition round_div (a b : Z) : Z :=
  let q := a / b in
  let r := a mod b in
  if 2 * r <? b then q
  else if b <? 2 * r then q + 1
  else if Z.even q then q else q + 1.

(** A byte is an integer in [0, 256). *)
Definition byte := Z.

(** [a.tobytes()] on an [int16] array: two bytes per sample, little endian. *)
Definition tobytes (a : frame) : list byte :=
  flat_map (fun z => [z mod 256; (z / 256) mod 256]) a.

(** [np.frombuffer(b, dtype=np.int16)]; [None] for the [ValueError] raised
    when the size of the buffer is not a multiple of the element size. *)
Fixpoint frombuffer (b : list byte) : option frame :=
  match b with
  | [] => Some []
  | [_] => None
  | lo :: hi :: rest =>
      match frombuffer rest with
      | Some a => Some (wrap16 (lo + 256 * hi) :: a)
      | None => None
      end
  end.

(** ** Exceptions and JSON values *)

(** The exception classes the source tells apart; all of them derive from
    [Exception].  Task cancellation is outside the model. *)
Inductive exn :=
| ConnectionClosed
| QueueFull
| Exception (what : string).

#[local] Set Warnings "-register-all".
Inductive json :=
| JNull
| JBool (b : bool)
| JNumber (q : Q)
| JString (s : string)
| JArray (l : list json)
| JObject (members : list (string * json)).

(** [d.get(key)] on a [dict]. *)
Fixpoint dict_get (members : list (string * json)) (key : string) : option json :=
  match members with
  | [] => None
  | (k, v) :: rest => if String.eqb k key then Some v else dict_get rest key
  end.

(** [v == s] for a string literal [s], [v] being the result of a [get]. *)
Definition eq_str (v : option json) (s : string) : bool :=
  match v with
  | Some (JString t) => String.eqb t s
  | _ => false
  end.

(** ** asyncio.Queue *)

Record Queue := mkQueue {
  maxsize : Z;
  items : list frame
}.

(** [asyncio.Queue(maxsize=n)] *)
Definition Queue_init (n : Z) : Queue := {| maxsize := n; items := [] |}.

Definition qsize (q : Queue) : Z := len (items q).

(** [Queue.full]: a queue with [maxsize <= 0] is never full. *)
Definition full (q : Queue) : bool :=
  if maxsize q <=? 0 then false else maxsize q <=? qsize q.

Definition enqueue (q : Queue) (item : frame) : Queue :=
  {| maxsize := maxsize q; items := items q ++ [item] |}.

(** [Queue.put_nowait]: raises [QueueFull] when no slot is free. *)
Definition put_nowait (q : Queue) (item : frame) : exn + Queue :=
  if full q then inl QueueFull else inr (enqueue q item).

(** [Queue.get_nowait]; [None] for [QueueEmpty]. *)
Definition get_nowait (q : Queue) : option (frame * Queue) :=
  match items q with
  | [] => None
  | item :: rest => Some (item, {| maxsize := maxsize q; items := rest |})
  end.

(** Outcome of [await Queue.put(item)]: while the queue is full the caller
    waits for a free slot; [put] itself never raises [QueueFull]. *)
Inductive put_outcome :=
| PutDone (q : Queue)
| PutWaits.

Definition put (q : Queue) (item : frame) : put_outcome :=
  if full q then PutWaits else PutDone (enqueue q item).

(** ** The external collaborators *)

(** What the libraries called by the client compute.  [message] is what the
    channel carries (a [str] or [bytes]). *)
Record Externals := mkExternals {
  message : Type;
  json_loads : message -> option json;        (* None: JSONDecodeError *)
  json_dumps : json -> message;
  b64decode : string -> option (list byte);    (* None: binascii.Error *)
  b64encode : list byte -> string;
  resample : list float -> Z -> option (list float)  (* scipy.signal.resample(x, num); None: raises *)
}.

(** [scipy.signal.resample(x, num)] returns [num] samples. *)
Definition resample_returns_num (E : Externals) : Prop :=
  forall x num y, resample E x num = Some y -> len y = num.

(** ** The state of the relay *)

Inductive level := DEBUG | INFO | WARNING | ERROR.

(** A call of [logger.<level>(text)]; decorations and interpolated values
    of the texts are left out. *)
Record log_record := Log { log_level : level; log_text : string }.

(** What the task is suspended on when an [await] does not complete. *)
Inductive wait :=
| WaitRecv                 (* no inbound message yet *)
| WaitPut (item : frame).  (* [Queue.put] on a full queue, holding [item] *)

Section Relay.

Variable E : Externals.

(** What the channel delivers to [recv()] and to [async for]. *)
Inductive ws_event :=
| Message (m : message E)
| CloseOK            (* normal closure *)
| Raises (e : exn).  (* the receive raises [e] *)

(** The connection object returned by [websockets.connect]: the events it
    will deliver, the outcome of each coming [send] ([Some e]: raises [e]),
    the messages sent so far, and whether [close] was called on it. *)
Record WebSocket := mkWebSocket {
  inbound : list ws_event;
  send_script : list (option exn);
  outbound : list (message E);
  closed : bool
}.

Record state := mkState {
  websocket : option WebSocket;   (* self.websocket *)
  connected : bool;               (* self.connected *)
  output_queue : Queue;           (* self.output_queue, the voice_agent_queue *)
  queue : Queue;                  (* the local_audio_queue given to rtc_session *)
  log : list log_record;
  stdout : list json
}.

(** [VoiceAgentClient.__init__], with the two queues created by [main]. *)
Definition VoiceAgentClient_init : state :=
  {| websocket := None; connected := false;
     output_queue := Queue_init 50; queue := Queue_init 50;
     log := []; stdout := [] |}.

Definition with_websocket (w : option WebSocket) (s : state) : state :=
  mkState w (connected s) (output_queue s) (queue s) (log s) (stdout s).
Definition with_connected (c : bool) (s : state) : state :=
  mkState (websocket s) c (output_queue s) (queue s) (log s) (stdout s).
Definition with_output_queue (q : Queue) (s : state) : state :=
  mkState (websocket s) (connected s) q (queue s) (log s) (stdout s).
Definition with_queue (q : Queue) (s : state) : state :=
  mkState (websocket s) (connected s) (output_queue s) q (log s) (stdout s).
Definition with_log (l : list log_record) (s : state) : state :=
  mkState (websocket s) (connected s) (output_queue s) (queue s) l (stdout s).
Definition with_stdout (o : list json) (s : state) : state :=
  mkState (websocket s) (connected s) (output_queue s) (queue s) (log s) o.

(** *** A monad for state, exceptions and suspension *)

Inductive result (A : Type) :=
| Ret (a : A) (s : state)
| Raise (e : exn) (s : state)
| Blocked (w : wait) (s : state).
Arguments Ret {A}. Arguments Raise {A}. Arguments Blocked {A}.

Definition M (A : Type) := state -> result A.

Definition ret {A} (a : A) : M A := fun s => Ret a s.
Definition raise {A} (e : exn) : M A := fun s => Raise e s.
Definition block {A} (w : wait) : M A := fun s => Blocked w s.

Definition bind {A B} (m : M A) (k : A -> M B) : M B :=
  fun s =>
    match m s with
    | Ret a s' => k a s'
    | Raise e s' => Raise e s'
    | Blocked w s' => Blocked w s'
    end.

Notation "x <- m ;; k" := (bind m (fun x => k))
  (at level 61, m at next level, right associativity).
Notation "m ;; k" := (bind m (fun _ => k))
  (at level 61, right associativity).

(** [try: m  except <classes selected by h>: handler] *)
Definition try_except {A} (m : M A) (h : exn -> option (M A)) : M A :=
  fun s =>
    match m s with
    | Raise e s' =>
        match h e with
        | Some handler => handler s'
        | None => Raise e s'
        end
    | r => r
    end.

(** [try: m  finally: f] *)
Definition try_finally {A} (m : M A) (f : M unit) : M A :=
  fun s =>
    match m s with
    | Ret a s' => bind f (fun _ => ret a) s'
    | Raise e s' => bind f (fun _ => raise e) s'
    | Blocked w s' => Blocked w s'
    end.

Definition except_Exception {A} (handler : M A) : exn -> option (M A) :=
  fun _ => Some handler.
Definition except_QueueFull {A} (handler : M A) : exn -> option (M A) :=
  fun e => match e with QueueFull => Some handler | _ => None end.
Definition except_ConnectionClosed {A} (handler : M A) : exn -> option (M A) :=
  fun e => match e with ConnectionClosed => Some handler | _ => None end.

(** Two [except] clauses, tried in order. *)
Definition orelse {A} (h1 h2 : exn -> option (M A)) : exn -> option (M A) :=
  fun e => match h1 e with Some k => Some k | None => h2 e end.

Definition get_state : M state := fun s => Ret s s.
Definition modify (f : state -> state) : M unit := fun s => Ret tt (f s).

Definition of_option {A} (e : exn) (o : option A) : M A :=
  match o with Some a => ret a | None => raise e end.

Definition logger (l : level) (text : string) : M unit :=
  modify (fun s => with_log (log s ++ [Log l text]) s).

Definition print (v : json) : M unit :=
  modify (fun s => with_stdout (stdout s ++ [v]) s).

(** *** Library calls *)

(** [json.loads(message)] *)
Definition loads (m : message E) : M json :=
  of_option (Exception "JSONDecodeError") (json_loads E m).

(** [data.get(key)]: only a [dict] has the method. *)
Definition py_get (data : json) (key : string) : M (option json) :=
  match data with
  | JObject members => ret (dict_get members key)
  | _ => raise (Exception "AttributeError")
  end.

(** [data.get(key, default)] *)
Definition py_get_default (data : json) (key : string) (default : json) : M json :=
  v <- py_get data key ;;
  ret (match v with Some x => x | None => default end).

(** [base64.b64decode(v)] for the JSON value [v]. *)
Definition b64decode_value (v : json) : M (list byte) :=
  match v with
  | JString s => of_option (Exception "binascii.Error") (b64decode E s)
  | _ => raise (Exception "TypeError")
  end.

(** [scipy.signal.resample(audio_data.astype(np.float32), num).astype(np.int16)],
    the expression of both conversion sites. *)
Definition resample_int16 (audio_data : frame) (num : Z) : option frame :=
  match resample E (astype_float32 audio_data) num with
  | Some y => Some (astype_int16 y)
  | None => None
  end.

(** *** The channel *)

(** The method call [self.websocket.<m>] when [self.websocket] is [None]. *)
Definition the_websocket : M WebSocket :=
  s <- get_state ;;
  of_option (Exception "AttributeError") (websocket s).

(** [await websockets.connect(self.url)], whose outcome is [dial]. *)
Definition websockets_connect (dial : exn + WebSocket) : M WebSocket :=
  match dial with
  | inl e => raise e
  | inr ws => ret ws
  end.

Definition set_inbound (ws : WebSocket) (evs : list ws_event) : WebSocket :=
  mkWebSocket evs (send_script ws) (outbound ws) (closed ws).

(** [await self.websocket.recv()] *)
Definition recv : M (message E) :=
  ws <- the_websocket ;;
  match inbound ws with
  | [] => block WaitRecv
  | ev :: rest =>
      modify (with_websocket (Some (set_inbound ws rest))) ;;
      match ev with
      | Message m => ret m
      | CloseOK => raise ConnectionClosed
      | Raises e => raise e
      end
  end.

(** [await self.websocket.send(m)].  The outcomes modelled are the two the
    source handles: the call returns or it raises.  A send that flow
    control holds back without end is not among them. *)
Definition send (m : message E) : M unit :=
  ws <- the_websocket ;;
  match send_script ws with
  | Some e :: script =>
      modify (with_websocket
                (Some (mkWebSocket (inbound ws) script (outbound ws) (closed ws)))) ;;
      raise e
  | outcome =>
      modify (with_websocket
                (Some (mkWebSocket (inbound ws) (tl outcome) (outbound ws ++ [m])
                                   (closed ws))))
  end.

(** [await self.websocket.close()] *)
Definition close : M unit :=
  ws <- the_websocket ;;
  modify (with_websocket
            (Some (mkWebSocket (inbound ws) (send_script ws) (outbound ws) true))).

(** [await self.output_queue.put(item)] *)
Definition output_queue_put (item : frame) : M unit :=
  s <- get_state ;;
  match put (output_queue s) item with
  | PutDone q => modify (with_output_queue q)
  | PutWaits => block (WaitPut item)
  end.

(** [await queue.put(item)] in [rtc_session] *)
Definition queue_put (item : frame) : M unit :=
  s <- get_state ;;
  match put (queue s) item with
  | PutDone q => modify (with_queue q)
  | PutWaits => block (WaitPut item)
  end.

(** *** VoiceAgentClient *)

Definition connect (dial : exn + WebSocket) : M bool :=
  try_except
    (logger INFO "Connecting to voice agent" ;;
     ws <- websockets_connect dial ;;
     modify (with_websocket (Some ws)) ;;
     logger INFO "Waiting for ready message..." ;;
     message <- recv ;;
     data <- loads message ;;
     ty <- py_get data "type" ;;
     if eq_str ty "ready" then
       logger INFO "Voice agent connected and ready!" ;;
       modify (with_connected true) ;;
       ret true
     else
       logger ERROR "Expected ready message" ;;
       ret false)
    (except_Exception
       (logger ERROR "Failed to connect to voice agent" ;;
        ret false)).

Definition send_audio (audio_data : frame) : M unit :=
  s <- get_state ;;
  if negb (connected s) || match websocket s with None => true | Some _ => false end
  then ret tt
  else
    try_except
      (resampled <- of_option (Exception "ValueError")
         (resample_int16 audio_data
            (py_int_truediv (len audio_data * VOICE_AGENT_INPUT_RATE) SAMPLERATE)) ;;
       let audio_bytes := tobytes resampled in
       let audio_b64 := b64encode E audio_bytes in
       let message := JObject [("type", JString "audio"); ("data", JString audio_b64)] in
       send (json_dumps E message) ;;
       logger DEBUG "Sent samples to voice agent")
      (except_Exception (logger ERROR "Error sending audio")).

(** The body of the loop of [listen_for_responses]. *)
Definition handle_message (message : message E) : M unit :=
  data <- loads message ;;
  ty <- py_get data "type" ;;
  (if eq_str ty "audio" then
     audio_b64 <- py_get_default data "data" (JString EmptyString) ;;
     audio_bytes <- b64decode_value audio_b64 ;;
     audio_data <- of_option (Exception "ValueError") (frombuffer audio_bytes) ;;
     resampled <- of_option (Exception "ValueError")
       (resample_int16 audio_data
          (py_int_truediv (len audio_data * SAMPLERATE) VOICE_AGENT_OUTPUT_RATE)) ;;
     try_except
       (output_queue_put resampled ;;
        logger DEBUG "Received samples from voice agent")
       (except_QueueFull (logger WARNING "Output queue full, dropping audio"))
   else ret tt) ;;
  ty <- py_get data "type" ;;
  if eq_str ty "text" then
    text <- py_get_default data "data" (JString EmptyString) ;;
    print text
  else ret tt.

(** [async for message in self.websocket: ...] over the events [evs] the
    channel holds; when they are used up the loop awaits the next one. *)
Fixpoint listen_loop (evs : list ws_event) : M unit :=
  match evs with
  | [] => block WaitRecv
  | ev :: rest =>
      ws <- the_websocket ;;
      modify (with_websocket (Some (set_inbound ws rest))) ;;
      match ev with
      | Message m => handle_message m ;; listen_loop rest
      | CloseOK => ret tt
      | Raises e => raise e
      end
  end.

Definition listen_for_responses : M unit :=
  try_except
    (s <- get_state ;;
     match websocket s with
     | Some ws => listen_loop (inbound ws)
     | None => raise (Exception "TypeError")
     end)
    (orelse
       (except_ConnectionClosed
          (logger INFO "Voice agent connection closed" ;;
           modify (with_connected false)))
       (except_Exception
          (logger ERROR "Error listening for responses" ;;
           modify (with_connected false)))).

Definition disconnect : M unit :=
  modify (with_connected false) ;;
  s <- get_state ;;
  match websocket s with
  | Some _ => close
  | None => ret tt
  end.

(** *** The text bridge *)

(** [_process_chat_message]; [read] is the outcome of [reader.read_all()].
    The value is the serialized envelope, or [None] when the handler of
    the [except] clause ends the function without a [return]. *)
Definition process_chat_message (read : exn + string) : M (option (message E)) :=
  try_except
    (full_message <- match read with inl e => raise e | inr t => ret t end ;;
     logger INFO "[CHAT]" ;;
     let message := JObject [("type", JString "text"); ("data", JString full_message)] in
     ret (Some (json_dumps E message)))
    (except_Exception
       (logger ERROR "Error processing chat message" ;;
        ret None)).

(** [await self.websocket.send(result)]: [send] refuses [None] with a
    [TypeError] before anything is written. *)
Definition send_result (result : option (message E)) : M unit :=
  match result with
  | Some m => send m
  | None => the_websocket ;; raise (Exception "TypeError")
  end.

(** [process_and_send], the task that [text_listener]'s handler creates
    for each chat stream. *)
Definition process_and_send (read : exn + string) : M unit :=
  result <- process_chat_message read ;;
  send_result result.

(** *** The frame loop of rtc_session *)

(** [async for audio_frame_event in stream: ...] over the frames the
    stream delivers before it ends; a frame is given by its samples. *)
Fixpoint rtc_session_loop (frames : list frame) (frames_processed : Z) : M unit :=
  match frames with
  | [] => ret tt
  | audio_data :: rest =>
      let frames_processed := frames_processed + 1 in
      (if frames_processed mod 100 =? 0
       then logger DEBUG "Processed audio frames" else ret tt) ;;
      send_audio audio_data ;;
      try_except
        (queue_put audio_data)
        (except_QueueFull (logger WARNING "Audio queue full, dropping frame")) ;;
      rtc_session_loop rest frames_processed
  end.

Definition rtc_session_stream (frames : list frame) : M unit :=
  logger INFO "Starting audio processing with voice agent..." ;;
  try_finally
    (try_except
       (rtc_session_loop frames 0)
       (except_Exception (logger ERROR "Error processing audio stream")))
    (logger INFO "Cleaning up audio stream...").

End Relay.

Arguments Ret {E A}.
Arguments Raise {E A}.
Arguments Blocked {E A}.
Arguments Message {E}.
Arguments CloseOK {E}.
Arguments Raises {E}.
Arguments mkWebSocket {E}.
Arguments inbound {E}.
Arguments send_script {E}.
Arguments outbound {E}.
Arguments closed {E}.
Arguments set_inbound {E}.
Arguments mkState {E}.
Arguments websocket {E}.
Arguments connected {E}.
Arguments output_queue {E}.
Arguments queue {E}.
Arguments log {E}.
Arguments stdout {E}.
Arguments with_websocket {E}.
Arguments with_connected {E}.
Arguments with_output_queue {E}.
Arguments with_queue {E}.
Arguments with_log {E}.
Arguments with_stdout {E}.

(** ** Calls on an AudioBuffer *)

Inductive buffer_call :=
| AddFrame (frame_data : frame)
| GetChunk
| GetPaddedChunk.

(** A frame handed to the caller, with the number of its samples that were
    taken from the buffer ([blocksize] for [get_chunk], the local
    [available] for [get_padded_chunk]). *)
Record delivered := mkDelivered { out : frame; taken : Z }.

(** A sequence of calls on one buffer: the frames returned, in order, and
    the buffer left; [None] when a call raises.  A [get_chunk] that returns
    [None] delivers nothing. *)
Fixpoint run_calls (calls : list buffer_call) (b : AudioBuffer)
  : option (list delivered * AudioBuffer) :=
  match calls with
  | [] => Some ([], b)
  | AddFrame frame_data :: rest => run_calls rest (add_frame b frame_data)
  | GetChunk :: rest =>
      match get_chunk b with
      | Some (chunk, b') =>
          match run_calls rest b' with
          | Some (ds, b'') => Some (mkDelivered chunk (blocksize b) :: ds, b'')
          | None => None
          end
      | None => run_calls rest b
      end
  | GetPaddedChunk :: rest =>
      match get_padded_chunk b with
      | Some (chunk, b') =>
          match run_calls rest b' with
          | Some (ds, b'') =>
              Some (mkDelivered chunk (Z.min (len (buffer b)) (blocksize b)) :: ds, b'')
          | None => None
          end
      | None => None
      end
  end.

(** The frames given to [add_frame] by a sequence of calls. *)
Fixpoint added (calls : list buffer_call) : list frame :=
  match calls with
  | [] => []
  | AddFrame frame_data :: rest => frame_data :: added rest
  | _ :: rest => added rest
  end.

(** ** The playback callback of audio_player *)

Definition CHANNELS : Z := 1.

(** What the callback closes over: the queue, the buffer, the counter
    [frames_played], and the log. *)
Record player := mkPlayer {
  player_queue : Queue;
  player_buffer : AudioBuffer;
  frames_played : Z;
  player_log : list log_record
}.

(** [while not queue.empty(): data = queue.get_nowait();
    buffer.add_frame(data); frames_added += len(data)] *)
Fixpoint fill_from_queue (n : nat) (q : Queue) (b : AudioBuffer) (frames_added : Z)
  : Queue * AudioBuffer * Z :=
  match n with
  | O => (q, b, frames_added)
  | S n' =>
      match get_nowait q with
      | Some (data, q') =>
          fill_from_queue n' q' (add_frame b data) (frames_added + len data)
      | None => (q, b, frames_added)
      end
  end.

(** [outdata[:] = chunk.reshape(-1, 1)] for an [outdata] of shape
    [(frames, 1)]: the shapes must agree, a single sample is broadcast, and
    anything else raises [ValueError]. *)
Definition assign_outdata (frames : Z) (chunk : frame) : option frame :=
  if len chunk =? frames then Some chunk
  else if len chunk =? 1 then Some (repeat (hd 0 chunk) (Z.to_nat frames))
  else None.

(** [callback(outdata, frames, time, status)]: the samples written to
    [outdata] and the player afterwards; [None] when an operation raises. *)
Definition callback (frames : Z) (status : bool) (p : player) : option (frame * player) :=
  let lg := if status then player_log p ++ [Log WARNING "Audio callback status"]
            else player_log p in
  let '(q1, b1, frames_added) :=
    fill_from_queue (List.length (items (player_queue p))) (player_queue p)
                    (player_buffer p) 0 in
  let lg := if 0 <? frames_added then lg ++ [Log DEBUG "Added frames to buffer"] else lg in
  match get_chunk b1 with
  | Some (chunk, b2) =>
      match assign_outdata frames chunk with
      | Some outdata =>
          let frames_played := frames_played p + len chunk in
          let lg := if frames_played mod (SAMPLERATE * 5) =? 0
                    then lg ++ [Log INFO "Playing audio"] else lg in
          Some (outdata, mkPlayer q1 b2 frames_played lg)
      | None => None
      end
  | None =>
      match get_padded_chunk b1 with
      | Some (chunk, b2) =>
          match assign_outdata frames chunk with
          | Some outdata => Some (outdata, mkPlayer q1 b2 (frames_played p) lg)
          | None => None
          end
      | None => None
      end
  end.

(** ** audio_publisher *)

(** [rtc.AudioFrame(data, sample_rate, num_channels, samples_per_channel)] *)
Record AudioFrame := mkAudioFrame {
  data : list byte;
  sample_rate : Z;
  num_channels : Z;
  samples_per_channel : Z
}.

(** How a run of the publisher stands: suspended in [queue.get()] on the
    empty queue; left through the exception [e] of [publish_track], which
    is raised before the [try] and so propagates to the caller; or
    returned ([None], after the [except] clause logged the exception [e] of
    a call inside the loop and control fell off the end of the function). *)
Inductive publisher_end :=
| AwaitsFrame
| Propagates (e : exn)
| Returns (e : exn).

(** The loop [while True: audio_data = await voice_agent_queue.get(); ...]
    over the frames the queue holds; [captures] are the outcomes of the
    coming [capture_frame] calls ([Some e]: raises [e]).  The value is the
    frames captured so far, the frames left in the queue, the log, and how
    the run stands. *)
Fixpoint publisher_loop (its : list frame) (captures : list (option exn))
         (captured : list AudioFrame) (lg : list log_record)
  : list AudioFrame * list frame * list log_record * publisher_end :=
  match its with
  | [] => (captured, [], lg, AwaitsFrame)
  | audio_data :: rest =>
      let frame := {| data := tobytes audio_data;
                      sample_rate := SAMPLERATE;
                      num_channels := CHANNELS;
                      samples_per_channel := len audio_data |} in
      match captures with
      | Some e :: _ =>
          (captured, rest, lg ++ [Log ERROR "Error in audio publisher"], Returns e)
      | _ =>
          publisher_loop rest (tl captures) (captured ++ [frame])
                         (lg ++ [Log DEBUG "Published samples to LiveKit"])
      end
  end.

(** [audio_publisher(room, voice_agent_queue)]; [publish] is the outcome of
    [publish_track]. *)
Definition audio_publisher (publish : option exn) (voice_agent_queue : Queue)
           (captures : list (option exn))
  : list AudioFrame * Queue * list log_record * publisher_end :=
  let lg := [Log INFO "Starting audio publisher for voice agent responses..."] in
  match publish with
  | Some e => ([], voice_agent_queue, lg, Propagates e)
  | None =>
      let lg := lg ++ [Log INFO "Voice agent response track published"] in
      let '(captured, remaining, lg, how) :=
        publisher_loop (items voice_agent_queue) captures [] lg in
      (captured, {| maxsize := maxsize voice_agent_queue; items := remaining |}, lg, how)
  end.

(** ** Waiting for a participant and a track in rtc_session *)

Inductive wait_outcome := ParticipantsFound | NoParticipants.

(** The loop [while len(room.remote_participants) == 0: ...]; [remote k] is
    the number of remote participants at the [k]-th test of the loop.  The
    value is the outcome, the final [participant_wait_time] (one second was
    slept for each unit) and the log; [None] when [fuel] tests did not
    settle the loop. *)
Fixpoint wait_for_participants (fuel : nat) (remote : nat -> Z) (k : nat)
         (participant_wait_time : Z) (lg : list log_record)
  : option (wait_outcome * Z * list log_record) :=
  match fuel with
  | O => None
  | S fuel' =>
      if remote k =? 0 then
        let lg := if participant_wait_time mod 5 =? 0
                  then lg ++ [Log INFO "No remote participants yet";
                              Log INFO "Room participants"]
                  else lg in
        let participant_wait_time := participant_wait_time + 1 in
        if 30 <? participant_wait_time
        then Some (NoParticipants, participant_wait_time,
                   lg ++ [Log WARNING "No participants joined after 30 seconds"])
        else wait_for_participants fuel' remote (S k) participant_wait_time lg
      else Some (ParticipantsFound, participant_wait_time,
                 lg ++ [Log INFO "Found remote participant(s)"])
  end.

Inductive TrackKind := KIND_UNKNOWN | KIND_AUDIO | KIND_VIDEO.

(** A track publication; a track is named by its sid. *)
Record publication := mkPublication {
  kind : TrackKind;
  subscribed : bool;
  muted : bool;
  track : option string
}.

Record participant := mkParticipant {
  identity : string;
  track_publications : list (string * publication)
}.

Definition is_audio (k : TrackKind) : bool :=
  match k with KIND_AUDIO => true | _ => false end.

(** [for track_sid, track_pub in participant.track_publications.items()]:
    the value of [track] after the loop, and the log. *)
Fixpoint scan_publications (pubs : list (string * publication))
         (found : option string) (lg : list log_record)
  : option string * list log_record :=
  match pubs with
  | [] => (found, lg)
  | (track_sid, track_pub) :: rest =>
      let lg := lg ++ [Log INFO "Track"] in
      if is_audio (kind track_pub) && subscribed track_pub
      then (track track_pub, lg ++ [Log INFO "Found subscribed audio track"])
      else scan_publications rest found lg
  end.

(** [for participant_sid, participant in room.remote_participants.items()] *)
Fixpoint scan_participants (ps : list (string * participant))
         (found : option string) (lg : list log_record)
  : option string * list log_record :=
  match ps with
  | [] => (found, lg)
  | (participant_sid, p) :: rest =>
      let lg := lg ++ [Log INFO "Checking participant"; Log INFO "Track publications"] in
      let '(found, lg) := scan_publications (track_publications p) found lg in
      match found with
      | Some _ => (found, lg)
      | None => scan_participants rest found lg
      end
  end.

(** The loop [while not track: ...]; [room k] is what
    [room.remote_participants] holds at the [k]-th pass.  The value is the
    track, the final [track_wait_time] (seconds slept) and the log; [None]
    when [fuel] passes found no track. *)
Fixpoint find_track (fuel : nat) (room : nat -> list (string * participant))
         (k : nat) (track_wait_time : Z) (lg : list log_record)
  : option (string * Z * list log_record) :=
  match fuel with
  | O => None
  | S fuel' =>
      let '(found, lg) := scan_participants (room k) None lg in
      match found with
      | Some t => Some (t, track_wait_time, lg)
      | None =>
          let track_wait_time := track_wait_time + 2 in
          let lg := if track_wait_time mod 10 =? 0
                    then lg ++ [Log INFO "Still waiting for audio track..."] else lg in
          find_track fuel' room (S k) track_wait_time lg
      end
  end.

(** ** An instance of the collaborators, to run the model *)

(** Sample-and-hold rate conversion: output sample [i] is the input sample
    at position [i * len x / num]. *)
Definition hold_resample (x : list float) (num : Z) : option (list float) :=
  if (num <=? 0) || (len x =? 0) then None
  else Some (map (fun i => nth (Z.to_nat (Z.of_nat i * len x / num)) x (inject_Z 0))
                 (seq 0 (Z.to_nat num))).

(** One character per byte. *)
Definition chars_of_bytes (b : list byte) : string :=
  string_of_list_ascii (map (fun z => ascii_of_nat (Z.to_nat z)) b).
Definition bytes_of_chars (s : string) : option (list byte) :=
  Some (map (fun c => Z.of_nat (nat_of_ascii c)) (list_ascii_of_string s)).

(** A message is given by what [json.loads] makes of it. *)
Definition demo : Externals :=
  {| message := option json;
     json_loads := fun m => m;
     json_dumps := fun v => Some v;
     b64decode := bytes_of_chars;
     b64encode := chars_of_bytes;
     resample := hold_resample |}.

(** Band-limited (Fourier) interpolation of three samples to six, which
    is what [scipy.signal.resample] computes there, in exact arithmetic:
    the even outputs are the inputs, and the odd outputs are
    [(2a + 2b - c) / 3] and its rotations.  Other sizes are held. *)
Definition fourier_resample (x : list float) (num : Z) : option (list float) :=
  match x with
  | [a; b; c] =>
      if num =? 6 then
        let mid (u v w : Q) : Q :=
          Qdiv (Qminus (Qplus (Qmult (inject_Z 2) u) (Qmult (inject_Z 2) v)) w)
               (inject_Z 3) in
        Some [a; mid a b c; b; mid b c a; c; mid c a b]
      else hold_resample x num
  | _ => hold_resample x num
  end.

Definition fourier : Externals :=
  {| message := option json;
     json_loads := fun m => m;
     json_dumps := fun v => Some v;
     b64decode := bytes_of_chars;
     b64encode := chars_of_bytes;
     resample := fourier_resample |}.

(** The message that parses to [v], and a message that does not parse. *)
Definition parsed (v : json) : message demo := Some v.
Definition garbled : message demo := None.

(** ** Notions used to state the properties *)

(** A ready message: it parses to a JSON object whose [type] member is the
    string [ready]. *)
Definition is_ready (E : Externals) (m : message E) : bool :=
  match json_loads E m with
  | Some (JObject members) => eq_str (dict_get members "type") "ready"
  | _ => false
  end.

(** The channel could be opened and its first event is a ready message. *)
Definition first_is_ready (E : Externals) (dial : exn + WebSocket E) : bool :=
  match dial with
  | inr ws =>
      match inbound ws with
      | Message m :: _ => is_ready E m
      | _ => false
      end
  | inl _ => false
  end.

(** The channel could not be opened, or it has delivered a first event. *)
Definition dial_settles (E : Externals) (dial : exn + WebSocket E) : bool :=
  match dial with
  | inr ws => match inbound ws with [] => false | _ => true end
  | inl _ => true
  end.

(** The state a result carries. *)
Definition state_of {E : Externals} {A : Type} (r : result E A) : state E :=
  match r with
  | Ret _ s => s
  | Raise _ s => s
  | Blocked _ s => s
  end.

(** Whether [close] was called on the channel of the client. *)
Definition channel_closed {E : Externals} (s : state E) : bool :=
  match websocket s with
  | Some ws => closed ws
  | None => false
  end.

Definition is_warning (r : log_record) : bool :=
  match log_level r with WARNING => true | _ => false end.

(** The warnings recorded. *)
Definition warnings (l : list log_record) : list log_record :=
  filter is_warning l.

(** The parsed message is a JSON object. *)
Definition is_object (v : json) : bool :=
  match v with JObject _ => true | _ => false end.

(** The [type] member of a parsed message, when it is an object. *)
Definition type_of (v : json) : option json :=
  match v with JObject members => dict_get members "type" | _ => None end.

(** The record [listen_for_responses] logs when it ends on exception [e]. *)
Definition listen_end_record (e : exn) : log_record :=
  match e with
  | ConnectionClosed => Log INFO "Voice agent connection closed"
  | _ => Log ERROR "Error listening for responses"
  end.

(** The samples an audio message carries: its [data] member (the empty
    string when absent), decoded and read as [int16]. *)
Definition decoded_samples (E : Externals) (m : message E) : option frame :=
  match json_loads E m with
  | Some (JObject members) =>
      if eq_str (dict_get members "type") "audio" then
        match dict_get members "data" with
        | Some (JString b64) =>
            match b64decode E b64 with
            | Some audio_bytes => frombuffer audio_bytes
            | None => None
            end
        | Some _ => None
        | None =>
            match b64decode E EmptyString with
            | Some audio_bytes => frombuffer audio_bytes
            | None => None
            end
        end
      else None
  | _ => None
  end.

(** The audio message carrying the samples [a], for [demo] and [fourier]. *)
Definition audio_message (a : frame) : option json :=
  Some (JObject [("type", JString "audio");
                 ("data", JString (chars_of_bytes (tobytes a)))]).

(** A queue of capacity 50 holding 50 frames. *)
Definition full_queue : Queue := {| maxsize := 50; items := repeat [0; 0] 50 |}.

(** An audio message [m] whose samples could be decoded and converted
    to the frame [f]. *)
Definition converts (E : Externals) (m : message E) (f : frame) : Prop :=
  exists audio_data,
    decoded_samples E m = Some audio_data /\
    resample_int16 E audio_data
      (py_int_truediv (len audio_data * SAMPLERATE) VOICE_AGENT_OUTPUT_RATE) = Some f.

(** The envelopes of the wire protocol. *)
Definition audio_envelope (E : Externals) (resampled : frame) : json :=
  JObject [("type", JString "audio");
           ("data", JString (b64encode E (tobytes resampled)))].
Definition text_envelope (full_message : string) : json :=
  JObject [("type", JString "text"); ("data", JString full_message)].

(** [json.loads] reads back what [json.dumps] wrote. *)
Definition loads_dumps (E : Externals) : Prop :=
  forall v, json_loads E (json_dumps E v) = Some v.

(** [b64decode] reads back what [b64encode] wrote. *)
Definition b64_round_trip (E : Externals) : Prop :=
  forall b, Forall (fun z => 0 <= z < 256) b -> b64decode E (b64encode E b) = Some b.

Definition is_int16 (z : Z) : Prop := -32768 <= z <= 32767.

(** The frame [audio_publisher] builds for the samples [audio_data]. *)
Definition frame_of (audio_data : frame) : AudioFrame :=
  {| data := tobytes audio_data;
     sample_rate := SAMPLERATE;
     num_channels := CHANNELS;
     samples_per_channel := len audio_data |}.

(** The track of the first subscribed audio publication of a participant,
    and the first such track, that is not [None], among participants. *)
Definition first_audio_track (p : participant) : option string :=
  match find (fun sp => is_audio (kind (snd sp)) && subscribed (snd sp))
             (track_publications p) with
  | Some sp => track (snd sp)
  | None => None
  end.

Fixpoint first_track (ps : list (string * participant)) : option string :=
  match ps with
  | [] => None
  | sp :: rest =>
      match first_audio_track (snd sp) with
      | Some t => Some t
      | None => first_track rest
      end
  end.

(** The messages sent so far on the channel of the client. *)
Definition sent {E : Externals} (s : state E) : list (message E) :=
  match websocket s with
  | Some ws => outbound ws
  | None => []
  end.

(** Nothing can reach the voice agent during the next [k] calls of
    [send_audio]: the client is not ready, or every coming send raises and
    at least [k] of them are determined. *)
Definition unreachable {E : Externals} (k : nat) (s : state E) : Prop :=
  connected s = false \/
  match websocket s with
  | None => True
  | Some ws =>
      Forall (fun o => o <> None) (send_script ws) /\
      (k <= List.length (send_script ws))%nat
  end.

(** * Properties *)

(** ** Slices *)

Lemma len_nonneg {A} (l : list A) : 0 <= len l.
Proof. unfold len; lia. Qed.

Lemma len_app {A} (l1 l2 : list A) : len (l1 ++ l2) = len l1 + len l2.
Proof. unfold len; rewrite length_app; lia. Qed.

Lemma slice_to_nonneg {A} (l : list A) (n : Z) :
  0 <= n -> slice_to l n = firstn (Z.to_nat n) l.
Proof.
  intros Hn. unfold slice_to, slice_bound.
  destruct (Z.ltb_spec n 0); [lia|].
  destruct (Z.le_gt_cases n (len l)) as [Hle|Hgt].
  - now rewrite Z.min_l.
  - rewrite Z.min_r by lia. unfold len in *.
    rewrite Nat2Z.id, firstn_all, firstn_all2; [reflexivity | lia].
Qed.

Lemma slice_from_nonneg {A} (l : list A) (n : Z) :
  0 <= n -> slice_from l n = skipn (Z.to_nat n) l.
Proof.
  intros Hn. unfold slice_from, slice_bound.
  destruct (Z.ltb_spec n 0); [lia|].
  destruct (Z.le_gt_cases n (len l)) as [Hle|Hgt].
  - now rewrite Z.min_l.
  - rewrite Z.min_r by lia. unfold len in *.
    rewrite Nat2Z.id, skipn_all, skipn_all2; [reflexivity | lia].
Qed.

Lemma len_firstn {A} (l : list A) (n : Z) :
  0 <= n <= len l -> len (firstn (Z.to_nat n) l) = n.
Proof. unfold len; intros H; rewrite length_firstn; lia. Qed.

Lemma len_skipn {A} (l : list A) (n : Z) :
  0 <= n <= len l -> len (skipn (Z.to_nat n) l) = len l - n.
Proof. unfold len; intros H; rewrite length_skipn; lia. Qed.

(** ** AudioBuffer *)

Example get_chunks_ex :
  get_chunks 5 (add_frames (AudioBuffer_init 2) [[1;2;3];[4];[5;6;7]])
  = ([[1;2];[3;4];[5;6]], {| blocksize := 2; buffer := [7] |}).
Proof. reflexivity. Qed.

Example get_padded_ex :
  get_padded_chunk {| blocksize := 4; buffer := [1;2] |}
  = Some ([1;2;0;0], {| blocksize := 4; buffer := [] |}).
Proof. reflexivity. Qed.

Lemma add_frames_buffer (frames : list frame) (b : AudioBuffer) :
  add_frames b frames = set_buffer b (buffer b ++ List.concat frames).
Proof.
  unfold add_frames. revert b.
  induction frames as [|f frames IH]; intros [bs buf]; simpl.
  - unfold set_buffer; simpl. now rewrite app_nil_r.
  - rewrite IH. unfold add_frame, set_buffer; simpl.
    now rewrite <- app_assoc.
Qed.

Lemma get_chunk_Some (b : AudioBuffer) :
  0 < blocksize b -> blocksize b <= len (buffer b) ->
  get_chunk b =
  Some (firstn (Z.to_nat (blocksize b)) (buffer b),
        set_buffer b (skipn (Z.to_nat (blocksize b)) (buffer b))).
Proof.
  intros Hbs Hle. unfold get_chunk.
  destruct (Z.leb_spec (blocksize b) (len (buffer b))); [|lia].
  rewrite slice_to_nonneg, slice_from_nonneg by lia. reflexivity.
Qed.

Lemma get_chunk_None (b : AudioBuffer) :
  len (buffer b) < blocksize b -> get_chunk b = None.
Proof.
  intros Hlt. unfold get_chunk.
  destruct (Z.leb_spec (blocksize b) (len (buffer b))); [lia|reflexivity].
Qed.

(** Draining a buffer: enough [get_chunk] calls cut the buffered samples
    into full blocks, front first, and leave less than a block. *)
Lemma get_chunks_drain (n : nat) : forall b : AudioBuffer,
  0 < blocksize b ->
  (Z.to_nat (len (buffer b) / blocksize b) <= n)%nat ->
  exists chunks b',
    get_chunks n b = (chunks, b') /\
    blocksize b' = blocksize b /\
    len chunks = len (buffer b) / blocksize b /\
    Forall (fun c => len c = blocksize b) chunks /\
    List.concat chunks ++ buffer b' = buffer b /\
    len (buffer b') < blocksize b.
Proof.
  induction n as [|n IH]; intros b Hbs Hn.
  - assert (Hq : len (buffer b) / blocksize b = 0).
    { pose proof (Z.div_pos (len (buffer b)) (blocksize b) (len_nonneg _) Hbs). lia. }
    assert (Hlt : len (buffer b) < blocksize b).
    { apply Z.div_small_iff in Hq; lia. }
    exists [], b. simpl. repeat split; auto; now rewrite Hq.
  - simpl. destruct (Z.lt_ge_cases (len (buffer b)) (blocksize b)) as [Hlt|Hge].
    + rewrite get_chunk_None by assumption.
      exists [], b. repeat split; auto.
      rewrite Z.div_small; [reflexivity | split; [apply len_nonneg | assumption]].
    + rewrite get_chunk_Some by assumption.
      set (b1 := set_buffer b (skipn (Z.to_nat (blocksize b)) (buffer b))).
      assert (Hlen1 : len (buffer b1) = len (buffer b) - blocksize b).
      { unfold b1; simpl. apply len_skipn. lia. }
      assert (Hdiv : len (buffer b) / blocksize b
                     = len (buffer b1) / blocksize b + 1).
      { rewrite Hlen1.
        replace (len (buffer b)) with
          ((len (buffer b) - blocksize b) + 1 * blocksize b) at 1 by lia.
        rewrite Z.div_add by lia. reflexivity. }
      assert (Hq1 : 0 <= len (buffer b1) / blocksize b).
      { apply Z.div_pos; [apply len_nonneg | assumption]. }
      destruct (IH b1) as (chunks & b' & Hrun & Hbs' & Hcnt & Hall & Hcat & Hrem).
      { assumption. }
      { change (blocksize b1) with (blocksize b). lia. }
      rewrite Hrun. eexists _, b'. split; [reflexivity|].
      change (blocksize b1) with (blocksize b) in *.
      repeat split; auto.
      * unfold len in *. simpl. lia.
      * constructor; [|assumption]. apply len_firstn. lia.
      * simpl. rewrite <- app_assoc, Hcat. unfold b1; simpl.
        apply firstn_skipn.
Qed.

(** C2. After any sequence of [add_frame] calls on a fresh buffer with a
    positive block size, holding [L] samples in all, repeated [get_chunk]
    calls return exactly [L / blocksize] chunks, each of [blocksize]
    samples, which are the added samples in their order; the next call
    returns [None] and fewer than [blocksize] samples stay buffered. *)
Theorem get_chunk_blocks_fifo (bs : Z) (frames : list frame) (n : nat) :
  0 < bs ->
  bs <= len (List.concat frames) ->
  (Z.to_nat (len (List.concat frames) / bs) <= n)%nat ->
  exists chunks b',
    get_chunks n (add_frames (AudioBuffer_init bs) frames) = (chunks, b') /\
    len chunks = len (List.concat frames) / bs /\
    Forall (fun c => len c = bs) chunks /\
    List.concat chunks ++ buffer b' = List.concat frames /\
    get_chunk b' = None /\
    len (buffer b') <= bs - 1.
Proof.
  intros Hbs _ Hn. rewrite add_frames_buffer. simpl.
  destruct (get_chunks_drain n (set_buffer (AudioBuffer_init bs) (List.concat frames)))
    as (chunks & b' & Hrun & Hbs' & Hcnt & Hall & Hcat & Hrem); simpl in *; auto.
  exists chunks, b'. repeat split; auto.
  - apply get_chunk_None. lia.
  - lia.
Qed.

Lemma get_chunk_blocks_fifo_witness :
  exists chunks b',
    get_chunks 3 (add_frames (AudioBuffer_init 2) [[1;2;3];[4];[5;6;7]])
      = (chunks, b') /\
    len chunks = len (List.concat [[1;2;3];[4];[5;6;7]]) / 2 /\
    Forall (fun c => len c = 2) chunks /\
    List.concat chunks ++ buffer b' = List.concat [[1;2;3];[4];[5;6;7]] /\
    get_chunk b' = None /\
    len (buffer b') <= 2 - 1.
Proof.
  apply (get_chunk_blocks_fifo 2 [[1;2;3];[4];[5;6;7]] 3);
    [lia | vm_compute; discriminate | vm_compute; lia].
Defined.

Lemma np_zeros_nonneg (n : Z) :
  0 <= n -> np_zeros n = Some (repeat 0 (Z.to_nat n)).
Proof. intros Hn. unfold np_zeros. destruct (Z.ltb_spec n 0); [lia|reflexivity]. Qed.

Lemma assign_prefix_zeros (src : frame) (n : nat) :
  (List.length src <= n)%nat ->
  assign_prefix (repeat 0 n) src = src ++ repeat 0 (n - List.length src).
Proof.
  intros Hle. unfold assign_prefix. f_equal.
  replace n with (List.length src + (n - List.length src))%nat at 1 by lia.
  rewrite repeat_app, skipn_app, repeat_length, Nat.sub_diag, skipn_all2.
  - reflexivity.
  - now rewrite repeat_length.
Qed.

(** What [get_padded_chunk] computes for a block size that is not negative:
    the first [blocksize] buffered samples (all of them when there are
    fewer), zero-filled to [blocksize]; these samples leave the buffer. *)
Lemma get_padded_chunk_eq (b : AudioBuffer) :
  0 <= blocksize b ->
  let n := Z.to_nat (blocksize b) in
  get_padded_chunk b =
  Some (firstn n (buffer b) ++ repeat 0 (n - List.length (firstn n (buffer b))),
        set_buffer b (skipn n (buffer b))).
Proof.
  intros Hbs n. unfold get_padded_chunk.
  rewrite np_zeros_nonneg by assumption. fold n.
  destruct (Z.ltb_spec 0 (len (buffer b))) as [Hpos|Hemp].
  - rewrite slice_to_nonneg, slice_from_nonneg by lia.
    assert (Hfirst : firstn (Z.to_nat (Z.min (len (buffer b)) (blocksize b))) (buffer b)
                     = firstn n (buffer b)).
    { destruct (Z.le_gt_cases (len (buffer b)) (blocksize b)).
      - rewrite Z.min_l by lia. unfold len, n in *.
        rewrite !firstn_all2; [reflexivity | lia | lia].
      - now rewrite Z.min_r by lia. }
    assert (Hskip : skipn (Z.to_nat (Z.min (len (buffer b)) (blocksize b))) (buffer b)
                    = skipn n (buffer b)).
    { destruct (Z.le_gt_cases (len (buffer b)) (blocksize b)).
      - rewrite Z.min_l by lia. unfold len, n in *.
        rewrite !skipn_all2; [reflexivity | lia | lia].
      - now rewrite Z.min_r by lia. }
    rewrite Hfirst, Hskip, assign_prefix_zeros; [reflexivity|].
    rewrite length_firstn. lia.
  - assert (Hnil : buffer b = []).
    { destruct (buffer b); [reflexivity | unfold len in Hemp; simpl in Hemp; lia]. }
    destruct b as [bs buf]; simpl in *; subst buf.
    rewrite firstn_nil, skipn_nil. simpl. now rewrite Nat.sub_0_r.
Qed.

(** C6 (counterexample). With more than [blocksize] samples buffered,
    [get_padded_chunk] takes one block and the rest stays buffered. *)
Lemma get_padded_chunk_keeps_excess :
  get_padded_chunk {| blocksize := 2; buffer := [7; 8; 9] |}
  = Some ([7; 8], {| blocksize := 2; buffer := [9] |})
  /\ buffer {| blocksize := 2; buffer := [9] |} <> [].
Proof. split; [reflexivity | discriminate]. Qed.

(** C6 (amended). For every buffer state with a block size that is not
    negative, [get_padded_chunk] returns a frame of exactly [blocksize]
    samples: the first [min(len, blocksize)] buffered samples followed by
    zeros.  It removes these samples from the front of the buffer; the
    buffer is empty afterwards when it held at most [blocksize] samples,
    and keeps the remaining [len - blocksize] samples otherwise. *)
Theorem get_padded_chunk_full_frame (b : AudioBuffer) :
  0 <= blocksize b ->
  exists chunk b',
    get_padded_chunk b = Some (chunk, b') /\
    len chunk = blocksize b /\
    blocksize b' = blocksize b /\
    chunk = firstn (Z.to_nat (blocksize b)) (buffer b)
            ++ repeat 0 (Z.to_nat (blocksize b - Z.min (len (buffer b)) (blocksize b))) /\
    firstn (Z.to_nat (blocksize b)) (buffer b) ++ buffer b' = buffer b /\
    (len (buffer b) <= blocksize b -> buffer b' = []) /\
    (blocksize b < len (buffer b) -> len (buffer b') = len (buffer b) - blocksize b).
Proof.
  intros Hbs. rewrite (get_padded_chunk_eq b Hbs).
  eexists _, _. split; [reflexivity|].
  assert (Hlen : List.length (firstn (Z.to_nat (blocksize b)) (buffer b))
                 = Z.to_nat (Z.min (len (buffer b)) (blocksize b))).
  { rewrite length_firstn. unfold len. lia. }
  simpl. repeat split.
  - rewrite len_app. unfold len. rewrite repeat_length, Hlen. lia.
  - f_equal. f_equal. rewrite Hlen. unfold len. lia.
  - apply firstn_skipn.
  - intros Hle. apply skipn_all2. unfold len in Hle. lia.
  - intros Hlt. apply len_skipn. lia.
Qed.

Lemma get_padded_chunk_full_frame_witness :
  exists chunk b',
    get_padded_chunk {| blocksize := 480; buffer := [7; 8; 9] |} = Some (chunk, b') /\
    len chunk = 480 /\
    blocksize b' = 480 /\
    chunk = firstn (Z.to_nat 480) [7; 8; 9]
            ++ repeat 0 (Z.to_nat (480 - Z.min (len [7; 8; 9]) 480)) /\
    firstn (Z.to_nat 480) [7; 8; 9] ++ buffer b' = [7; 8; 9] /\
    (len [7; 8; 9] <= 480 -> buffer b' = []) /\
    (480 < len [7; 8; 9] -> len (buffer b') = len [7; 8; 9] - 480).
Proof.
  apply (get_padded_chunk_full_frame {| blocksize := 480; buffer := [7; 8; 9] |}).
  simpl. lia.
Defined.

Lemma get_padded_chunk_pads (b : AudioBuffer) :
  len (buffer b) < blocksize b ->
  get_padded_chunk b =
    Some (buffer b ++ repeat 0 (Z.to_nat (blocksize b - len (buffer b))),
          set_buffer b []).
Proof.
  intros Hk. pose proof (len_nonneg (buffer b)) as H0.
  rewrite get_padded_chunk_eq by lia. simpl.
  rewrite firstn_all2, skipn_all2 by (unfold len in Hk; lia).
  replace (Z.to_nat (blocksize b) - List.length (buffer b))%nat
    with (Z.to_nat (blocksize b - len (buffer b))) by (unfold len; lia).
  reflexivity.
Qed.

(** C7. On a buffer holding [k < blocksize] samples, [get_padded_chunk]
    returns these [k] samples, in their order, followed by [blocksize - k]
    zeros, and leaves the buffer empty; on an empty buffer the frame is
    [blocksize] zeros. *)
Theorem get_padded_chunk_short (b : AudioBuffer) :
  len (buffer b) < blocksize b ->
  get_padded_chunk b =
    Some (buffer b ++ repeat 0 (Z.to_nat (blocksize b - len (buffer b))),
          set_buffer b [])
  /\ (buffer b = [] ->
      get_padded_chunk b = Some (repeat 0 (Z.to_nat (blocksize b)), b)).
Proof.
  intros Hk. split; [now apply get_padded_chunk_pads|].
  intros Hnil. rewrite get_padded_chunk_pads by assumption.
  destruct b as [bs buf]; simpl in *; subst buf.
  unfold set_buffer; simpl. now rewrite Z.sub_0_r.
Qed.

Lemma get_padded_chunk_short_witness :
  get_padded_chunk {| blocksize := 5; buffer := [7; 8] |} =
    Some ([7; 8] ++ repeat 0 (Z.to_nat (5 - len [7; 8])),
          set_buffer {| blocksize := 5; buffer := [7; 8] |} [])
  /\ ([7; 8] = [] ->
      get_padded_chunk {| blocksize := 5; buffer := [7; 8] |}
      = Some (repeat 0 (Z.to_nat 5), {| blocksize := 5; buffer := [7; 8] |})).
Proof.
  apply (get_padded_chunk_short {| blocksize := 5; buffer := [7; 8] |}).
  vm_compute. reflexivity.
Defined.

(** ** VoiceAgentClient.connect *)

Ltac run :=
  cbv [connect send_audio handle_message listen_for_responses disconnect
       bind ret raise block try_except try_finally modify get_state logger
       print loads py_get py_get_default of_option websockets_connect recv
       send close the_websocket except_Exception except_QueueFull
       except_ConnectionClosed orelse b64decode_value output_queue_put
       queue_put];
  cbn [websocket connected output_queue queue log stdout with_websocket
       with_connected with_output_queue with_queue with_log with_stdout
       inbound send_script outbound closed set_inbound state_of].

Section ConnectProperties.

Variable E : Externals.

Lemma connect_opening_fails (e : exn) (s : state E) :
  connect E (inl e) s =
  Ret false
      (with_log (log s ++ [Log INFO "Connecting to voice agent";
                             Log ERROR "Failed to connect to voice agent"]) s).
Proof. run. rewrite <- app_assoc. reflexivity. Qed.

(** C4 (counterexample). A first message with a [type] member [ready] and
    a further member is not the object [{type: ready}], and [connect]
    succeeds on it. *)
Lemma connect_accepts_further_members :
  let first :=
    parsed (JObject [("type", JString "ready"); ("session", JString "abc")]) in
  let ws := mkWebSocket [Message first] [] [] false in
  json_loads demo first <> Some (JObject [("type", JString "ready")]) /\
  exists s',
    connect demo (inr ws) (VoiceAgentClient_init demo) = Ret true s' /\
    connected s' = true.
Proof.
  split; [discriminate|]. eexists. split; reflexivity.
Qed.

(** C4 (amended). [connect] returns [True] exactly when the channel opens
    and its first inbound message parses to a JSON object whose [type]
    member is the string [ready] (further members are ignored), and then
    [connected] is set.  Every other first message, a closure or error of
    the channel before a first message, and a failure to open the channel
    make it return [False] with [connected] unchanged; no exception leaves
    [connect]. *)
Theorem connect_succeeds_iff_ready (dial : exn + WebSocket E) (s : state E) :
  ((exists s', connect E dial s = Ret true s') <-> first_is_ready E dial = true) /\
  (forall s', connect E dial s = Ret true s' -> connected s' = true) /\
  (forall s', connect E dial s = Ret false s' -> connected s' = connected s) /\
  (first_is_ready E dial = false -> dial_settles E dial = true ->
   exists s', connect E dial s = Ret false s') /\
  (forall e s', connect E dial s <> Raise e s').
Proof.
  unfold first_is_ready, dial_settles, is_ready.
  destruct dial as [e|[inb script out cl]]; [|destruct inb as [|[m| |e] rest]];
    run.
  3: destruct (json_loads E m) as [[| | | | |members]|];
     [..|destruct (eq_str (dict_get members "type") "ready")| ].
  all: cbn; repeat split; intros;
    repeat match goal with
      | H : exists _, _ |- _ => destruct H
      | H : Ret _ _ = Ret _ _ |- _ => inversion H; subst; clear H
      end;
    try discriminate; try reflexivity; eauto.
Qed.

End ConnectProperties.

(** ** VoiceAgentClient.send_audio and disconnect *)

Lemma warnings_app_other (l : list log_record) (r : log_record) :
  is_warning r = false -> warnings (l ++ [r]) = warnings l.
Proof.
  intros Hr. unfold warnings. rewrite filter_app. simpl. rewrite Hr.
  apply app_nil_r.
Qed.

Section ClientProperties.

Variable E : Externals.

(** [send_audio] always returns; it leaves the flag, the queues and the
    open/closed status of the channel as they are, and records no warning. *)
Lemma send_audio_returns (audio_data : frame) (s : state E) :
  exists s',
    send_audio E audio_data s = Ret tt s' /\
    connected s' = connected s /\
    output_queue s' = output_queue s /\
    queue s' = queue s /\
    stdout s' = stdout s /\
    channel_closed s' = channel_closed s /\
    (websocket s = None -> websocket s' = None) /\
    warnings (log s') = warnings (log s).
Proof.
  destruct s as [[[inb script out cl]|] [|] oq q lg so]; unfold channel_closed; run;
    cbn [negb orb];
    try (eexists; repeat split; first [reflexivity | discriminate]).
  destruct (resample_int16 E audio_data _); cbn.
  - destruct script as [|[e|] script]; cbn;
      eexists; (split; [reflexivity|]); cbn; repeat split;
      try discriminate; now apply warnings_app_other.
  - eexists; (split; [reflexivity|]); cbn; repeat split;
      try discriminate; now apply warnings_app_other.
Qed.

(** C9. [send_audio] does nothing when [connected] is false or no channel
    is set.  When the client is ready and the conversion or the send
    raises, the error is logged and [send_audio] returns normally: nothing
    is added to the messages sent, one send at most was attempted,
    [connected] stays true and the channel is not closed.  In every
    state [send_audio] returns normally, with [connected] and the
    open/closed status of the channel as they were. *)
Theorem send_audio_noop_or_swallowed (audio_data : frame) (s : state E) :
  (connected s = false \/ websocket s = None ->
   send_audio E audio_data s = Ret tt s) /\
  (forall ws,
     connected s = true -> websocket s = Some ws ->
     resample_int16 E audio_data
       (py_int_truediv (len audio_data * VOICE_AGENT_INPUT_RATE) SAMPLERATE) = None ->
     send_audio E audio_data s =
     Ret tt (with_log (log s ++ [Log ERROR "Error sending audio"]) s)) /\
  (forall ws resampled e script,
     connected s = true -> websocket s = Some ws ->
     resample_int16 E audio_data
       (py_int_truediv (len audio_data * VOICE_AGENT_INPUT_RATE) SAMPLERATE)
     = Some resampled ->
     send_script ws = Some e :: script ->
     send_audio E audio_data s =
     Ret tt (with_log (log s ++ [Log ERROR "Error sending audio"])
               (with_websocket
                  (Some (mkWebSocket (inbound ws) script (outbound ws) (closed ws)))
                  s))) /\
  (exists s',
     send_audio E audio_data s = Ret tt s' /\
     connected s' = connected s /\
     channel_closed s' = channel_closed s).
Proof.
  repeat split.
  4: { destruct (send_audio_returns audio_data s)
         as (s1 & H1 & Hc1 & _ & _ & _ & Hk1 & _).
       exists s1. repeat split; assumption. }
  - intros [Hc|Hw]; destruct s as [w c oq q lg so]; cbn in *; subst; run.
    + reflexivity.
    + now destruct c.
  - intros ws Hc Hw Hr. destruct s as [w c oq q lg so]; cbn in *; subst.
    run. cbn in Hr. now rewrite Hr.
  - intros ws resampled e script Hc Hw Hr Hs.
    destruct s as [w c oq q lg so]; cbn in *; subst.
    run. cbn in Hr. rewrite Hr. cbn. rewrite Hs. reflexivity.
Qed.

(** [disconnect] on a client holding a channel: the flag is cleared and
    the channel is closed. *)
Lemma disconnect_closes (ws : WebSocket E) (s : state E) :
  websocket s = Some ws ->
  disconnect E s =
  Ret tt (with_websocket
            (Some (mkWebSocket (inbound ws) (send_script ws) (outbound ws) true))
            (with_connected false s)).
Proof.
  intros Hw. destruct s as [w c oq q lg so]; cbn in *; subst. reflexivity.
Qed.

End ClientProperties.

(** A send that raises: the error is logged, the call returns, the flag and
    the channel stay as they were. *)
Lemma send_audio_noop_or_swallowed_witness :
  let ws := @mkWebSocket demo [] [Some ConnectionClosed] [] false in
  let s := mkState (Some ws) true (Queue_init 50) (Queue_init 50) [] [] in
  send_audio demo [10; 20; 30] s =
  Ret tt (with_log (log s ++ [Log ERROR "Error sending audio"])
            (with_websocket
               (Some (mkWebSocket (inbound ws) [] (outbound ws) (closed ws))) s)).
Proof.
  exact (proj1 (proj2 (proj2
           (send_audio_noop_or_swallowed demo [10; 20; 30]
              (mkState (Some (@mkWebSocket demo [] [Some ConnectionClosed] [] false))
                       true (Queue_init 50) (Queue_init 50) [] []))))
           (@mkWebSocket demo [] [Some ConnectionClosed] [] false)
           [10] ConnectionClosed [] eq_refl eq_refl eq_refl eq_refl).
Defined.

(** ** VoiceAgentClient.listen_for_responses *)

(** Case analysis on an innermost scrutinee of the goal. *)
Ltac break_match :=
  repeat match goal with
    | |- context [match ?x with _ => _ end] =>
        lazymatch x with
        | context [match _ with _ => _ end] => fail
        | _ => destruct x eqn:?; cbn
        end
    end.

Section ListenProperties.

Variable E : Externals.

(** A message is handled without touching the channel or the flag. *)
Lemma handle_message_keeps_client (m : message E) (s : state E) :
  websocket (state_of (handle_message E m s)) = websocket s /\
  connected (state_of (handle_message E m s)) = connected s.
Proof.
  destruct s as [w c oq q lg so]. run. unfold put. cbn.
  break_match; split; reflexivity.
Qed.

Lemma listen_loop_keeps_client (evs : list (ws_event E)) : forall s : state E,
  channel_closed (state_of (listen_loop E evs s)) = channel_closed s /\
  connected (state_of (listen_loop E evs s)) = connected s.
Proof.
  induction evs as [|ev rest IH]; intros s; [split; reflexivity|].
  cbn [listen_loop]. unfold bind at 1. unfold the_websocket, bind, get_state, of_option.
  destruct (websocket s) as [ws|] eqn:Hw; cbn; [|split; reflexivity].
  set (s1 := with_websocket (Some (set_inbound ws rest)) s).
  assert (H1 : channel_closed s1 = channel_closed s /\ connected s1 = connected s).
  { unfold channel_closed, s1. rewrite Hw. destruct s; split; reflexivity. }
  destruct ev as [m| |e]; cbn; try exact H1.
  destruct (handle_message_keeps_client m s1) as [Hw1 Hc1].
  destruct (handle_message E m s1) as [[] s2|e s2|w s2]; cbn in *.
  - destruct (IH s2) as [IH1 IH2]. rewrite IH1, IH2.
    unfold channel_closed in *. rewrite Hw1, Hc1. exact H1.
  - unfold channel_closed in *. rewrite Hw1, Hc1. exact H1.
  - unfold channel_closed in *. rewrite Hw1, Hc1. exact H1.
Qed.

(** [listen_for_responses] never closes the channel. *)
Lemma listen_for_responses_keeps_channel (s : state E) :
  channel_closed (state_of (listen_for_responses E s)) = channel_closed s.
Proof.
  unfold listen_for_responses, try_except. unfold bind at 1. unfold get_state.
  destruct (websocket s) as [ws|] eqn:Hw.
  - destruct (listen_loop_keeps_client (inbound ws) s) as [Hcl _].
    destruct (listen_loop E (inbound ws) s) as [[] s1|e s1|w s1]; cbn in *;
      try exact Hcl.
    destruct e; run; unfold channel_closed in *; cbn; exact Hcl.
  - unfold channel_closed. run. now rewrite Hw.
Qed.

End ListenProperties.

(** ** A failed handshake *)

Section FailedConnect.

Variable E : Externals.

Lemma connect_not_ready (ws : WebSocket E) (m : message E)
      (rest : list (ws_event E)) (s : state E) :
  inbound ws = Message m :: rest ->
  is_ready E m = false ->
  exists s',
    connect E (inr ws) s = Ret false s' /\
    connected s' = connected s /\
    websocket s' = Some (set_inbound ws rest).
Proof.
  intros Hin Hready. destruct ws as [inb script out cl]; cbn in Hin; subst inb.
  unfold is_ready in Hready. run.
  destruct (json_loads E m) as [[| | | | |members]|]; cbn;
    try (eexists; repeat split; reflexivity).
  rewrite Hready. eexists; repeat split; reflexivity.
Qed.

(** C10. When the channel opens and its first message is not a ready
    message, [connect] returns [False], [connected] remains false, and the
    channel stays assigned to the client and open: [connect] has not
    closed it, [send_audio] and [listen_for_responses] do not close it,
    and a subsequent [disconnect] does. *)
Theorem failed_connect_keeps_channel_open (ws : WebSocket E) (m : message E)
        (rest : list (ws_event E)) (s : state E) :
  inbound ws = Message m :: rest ->
  closed ws = false ->
  is_ready E m = false ->
  connected s = false ->
  exists s',
    connect E (inr ws) s = Ret false s' /\
    connected s' = false /\
    websocket s' = Some (set_inbound ws rest) /\
    channel_closed s' = false /\
    (forall audio_data,
       channel_closed (state_of (send_audio E audio_data s')) = false) /\
    channel_closed (state_of (listen_for_responses E s')) = false /\
    exists s'',
      disconnect E s' = Ret tt s'' /\
      connected s'' = false /\
      channel_closed s'' = true.
Proof.
  intros Hin Hopen Hready Hc.
  destruct (connect_not_ready ws m rest s Hin Hready) as (s' & Hrun & Hc' & Hw').
  assert (Hcl : channel_closed s' = false).
  { unfold channel_closed. rewrite Hw'. exact Hopen. }
  exists s'. repeat split; try assumption.
  - congruence.
  - intros audio_data.
    destruct (send_audio_returns E audio_data s') as (s1 & H1 & _ & _ & _ & _ & Hk & _).
    rewrite H1. cbn. congruence.
  - rewrite listen_for_responses_keeps_channel. exact Hcl.
  - rewrite (disconnect_closes E _ s' Hw'). eexists. repeat split.
Qed.

End FailedConnect.

Lemma failed_connect_keeps_channel_open_witness :
  let first := parsed (JObject [("type", JString "error")]) in
  let ws := mkWebSocket [Message first] [] [] false in
  let s := VoiceAgentClient_init demo in
  exists s',
    connect demo (inr ws) s = Ret false s' /\
    connected s' = false /\
    websocket s' = Some (set_inbound ws []) /\
    channel_closed s' = false /\
    (forall audio_data,
       channel_closed (state_of (send_audio demo audio_data s')) = false) /\
    channel_closed (state_of (listen_for_responses demo s')) = false /\
    exists s'',
      disconnect demo s' = Ret tt s'' /\
      connected s'' = false /\
      channel_closed s'' = true.
Proof.
  apply (failed_connect_keeps_channel_open demo
           (mkWebSocket [Message (parsed (JObject [("type", JString "error")]))]
                        [] [] false)
           (parsed (JObject [("type", JString "error")])) []
           (VoiceAgentClient_init demo)); reflexivity.
Defined.

(** ** The receive loop and malformed messages *)

Section ListenDispatch.

Variable E : Externals.

Lemma handle_message_unparseable (m : message E) (s : state E) :
  json_loads E m = None ->
  handle_message E m s = Raise (Exception "JSONDecodeError") s.
Proof. intros H. run. now rewrite H. Qed.

Lemma handle_message_not_object (m : message E) (v : json) (s : state E) :
  json_loads E m = Some v -> is_object v = false ->
  handle_message E m s = Raise (Exception "AttributeError") s.
Proof. intros H Hv. run. rewrite H. destruct v; try reflexivity; discriminate. Qed.

Lemma handle_message_other_type (m : message E) (v : json) (s : state E) :
  json_loads E m = Some v -> is_object v = true ->
  eq_str (type_of v) "audio" = false ->
  eq_str (type_of v) "text" = false ->
  handle_message E m s = Ret tt s.
Proof.
  intros H Hv Ha Ht. run. rewrite H. destruct v; try discriminate.
  cbn in *. rewrite Ha. cbn. now rewrite Ht.
Qed.

(** What [listen_for_responses] does once the loop raised [e]. *)
Lemma listen_for_responses_raise (ws : WebSocket E) (e : exn) (s s1 : state E) :
  websocket s = Some ws ->
  listen_loop E (inbound ws) s = Raise e s1 ->
  listen_for_responses E s =
  Ret tt (with_connected false (with_log (log s1 ++ [listen_end_record e]) s1)).
Proof.
  intros Hw Hloop. unfold listen_for_responses, try_except.
  unfold bind at 1. unfold get_state. rewrite Hw, Hloop.
  destruct e; reflexivity.
Qed.

(** C3 (amended). Let the next inbound event be [ev], and [s1] the state
    once it is taken from the channel.
    - A message that parses to a JSON object whose [type] is neither
      [audio] nor [text] is discarded, nothing is logged, and the loop goes
      on with the following events.
    - A message that does not parse as JSON, or parses to something other
      than an object, ends the loop: an error is logged, [connected] is set
      to false, and the following events are left unprocessed.
    - An exception raised by the channel (closed or failed connection) ends
      the loop in the same way, logged at the level of its kind. *)
Theorem listen_for_responses_dispatch (ws : WebSocket E) (ev : ws_event E)
        (rest : list (ws_event E)) (s : state E) :
  websocket s = Some ws ->
  inbound ws = ev :: rest ->
  let s1 := with_websocket (Some (set_inbound ws rest)) s in
  (forall m v,
     ev = Message m -> json_loads E m = Some v -> is_object v = true ->
     eq_str (type_of v) "audio" = false -> eq_str (type_of v) "text" = false ->
     listen_for_responses E s = listen_for_responses E s1) /\
  (forall m,
     ev = Message m ->
     (json_loads E m = None \/
      exists v, json_loads E m = Some v /\ is_object v = false) ->
     listen_for_responses E s =
     Ret tt (with_connected false
               (with_log (log s ++ [Log ERROR "Error listening for responses"]) s1))) /\
  (forall e,
     ev = Raises e ->
     listen_for_responses E s =
     Ret tt (with_connected false
               (with_log (log s ++ [listen_end_record e]) s1))).
Proof.
  intros Hw Hin s1.
  assert (Hstep : forall k : M E unit,
             bind E (the_websocket E)
               (fun ws0 => bind E (modify E (with_websocket (Some (set_inbound ws0 rest))))
                                (fun _ => k)) s = k s1).
  { intros k. cbv [bind the_websocket get_state of_option modify ret].
    rewrite Hw. reflexivity. }
  repeat split.
  - intros m v -> Hm Hv Ha Ht.
    unfold listen_for_responses, try_except. unfold bind at 1 4. unfold get_state.
    rewrite Hw, Hin. cbn [listen_loop websocket with_websocket inbound set_inbound s1].
    rewrite Hstep. unfold bind at 1.
    rewrite (handle_message_other_type m v s1 Hm Hv Ha Ht). reflexivity.
  - intros m -> Hbad.
    assert (Hraise : exists what, handle_message E m s1 = Raise (Exception what) s1).
    { destruct Hbad as [Hnone|(v & Hm & Hv)].
      - eexists. now apply handle_message_unparseable.
      - eexists. eapply handle_message_not_object; eassumption. }
    destruct Hraise as (what & Hraise).
    rewrite (listen_for_responses_raise ws (Exception what) s s1 Hw).
    + reflexivity.
    + rewrite Hin. cbn [listen_loop]. rewrite Hstep. unfold bind at 1.
      now rewrite Hraise.
  - intros e ->.
    rewrite (listen_for_responses_raise ws e s s1 Hw).
    + reflexivity.
    + rewrite Hin. cbn [listen_loop]. now rewrite Hstep.
Qed.

End ListenDispatch.

(** C3 (counterexample). A message that does not parse ends the loop: the
    client is marked as not connected and the text message that follows is
    never printed. *)
Lemma listen_stops_at_malformed_message :
  let later := parsed (JObject [("type", JString "text"); ("data", JString "hello")]) in
  let ws := mkWebSocket [Message garbled; Message later] [] [] false in
  let s := with_connected true
             (with_websocket (Some ws) (VoiceAgentClient_init demo)) in
  exists s',
    listen_for_responses demo s = Ret tt s' /\
    connected s' = false /\
    stdout s' = [] /\
    websocket s' = Some (set_inbound ws [Message later]).
Proof. eexists. repeat split. Qed.

Lemma listen_for_responses_dispatch_witness :
  let m := parsed (JObject [("type", JString "ping")]) in
  let later := parsed (JObject [("type", JString "text"); ("data", JString "hello")]) in
  let ws := mkWebSocket [Message m; Message later; CloseOK] [] [] false in
  let s := with_connected true
             (with_websocket (Some ws) (VoiceAgentClient_init demo)) in
  let s1 := with_websocket (Some (set_inbound ws [Message later; CloseOK])) s in
  listen_for_responses demo s = listen_for_responses demo s1 /\
  stdout (state_of (listen_for_responses demo s)) = [JString "hello"] /\
  log (state_of (listen_for_responses demo s)) = [].
Proof.
  split; [|split; reflexivity].
  pose (m := parsed (JObject [("type", JString "ping")])).
  pose (later := parsed (JObject [("type", JString "text"); ("data", JString "hello")])).
  pose (ws := mkWebSocket [Message m; Message later; CloseOK] [] [] false).
  pose (s := with_connected true
               (with_websocket (Some ws) (VoiceAgentClient_init demo))).
  exact (proj1 (listen_for_responses_dispatch demo ws (Message m)
                  [Message later; CloseOK] s eq_refl eq_refl)
               m (JObject [("type", JString "ping")])
               eq_refl eq_refl eq_refl eq_refl eq_refl).
Defined.

(** ** The bounded queues *)

Example queue_fills_up :
  fold_left (fun q item => match put_nowait q item with inr q' => q' | inl _ => q end)
            [[1]; [2]; [3]] (Queue_init 2)
  = {| maxsize := 2; items := [[1]; [2]] |}.
Proof. reflexivity. Qed.

(** On a full queue [put_nowait] raises [QueueFull], [put] waits. *)
Lemma full_queue_put (q : Queue) (item : frame) :
  full q = true ->
  put_nowait q item = inl QueueFull /\ put q item = PutWaits.
Proof. intros H. unfold put_nowait, put. now rewrite H. Qed.

(** Once a consumer has taken a frame from a full queue, the waiting [put]
    completes: the frame is appended, not lost. *)
Lemma put_after_get (q q' : Queue) (x item : frame) :
  full q = true -> qsize q = maxsize q ->
  get_nowait q = Some (x, q') ->
  put q' item = PutDone (enqueue q' item) /\
  items (enqueue q' item) = tl (items q) ++ [item].
Proof.
  unfold full, get_nowait, put, qsize, len.
  destruct q as [n [|y rest]]; cbn [items maxsize]; [discriminate|].
  intros Hfull Hsize [= <- <-]. unfold full, qsize, len. cbn [items maxsize tl].
  destruct (Z.leb_spec n 0); [discriminate|].
  cbn [List.length] in Hsize.
  destruct (Z.leb_spec n (Z.of_nat (List.length rest))); [lia|].
  split; reflexivity.
Qed.

Lemma full_at_capacity (q : Queue) :
  maxsize q = 50 -> qsize q = 50 -> full q = true.
Proof. intros Hm Hs. unfold full. rewrite Hm, Hs. reflexivity. Qed.

Lemma eq_str_audio_not_text (v : option json) :
  eq_str v "audio" = true -> eq_str v "text" = false.
Proof.
  destruct v as [[| | |t| |]|]; cbn; try discriminate.
  intros H. apply String.eqb_eq in H. now subst t.
Qed.

Section FullQueue.

Variable E : Externals.

(** An audio message whose frame could be converted reaches the [put]. *)
Lemma handle_message_audio (m : message E) (audio_data f : frame) (s : state E) :
  decoded_samples E m = Some audio_data ->
  resample_int16 E audio_data
    (py_int_truediv (len audio_data * SAMPLERATE) VOICE_AGENT_OUTPUT_RATE) = Some f ->
  handle_message E m s =
  match put (output_queue s) f with
  | PutDone q =>
      Ret tt (with_log (log s ++ [Log DEBUG "Received samples from voice agent"])
                (with_output_queue q s))
  | PutWaits => Blocked (WaitPut f) s
  end.
Proof.
  unfold decoded_samples. intros Hd Hr. run.
  destruct (json_loads E m) as [[| | | | |members]|]; try discriminate.
  destruct (eq_str (dict_get members "type") "audio") eqn:Ha; try discriminate.
  cbn.
  assert (Hb : exists audio_bytes,
             match match dict_get members "data" with
                   | Some x => x | None => JString EmptyString end with
             | JString b64 => b64decode E b64
             | _ => None
             end = Some audio_bytes /\ frombuffer audio_bytes = Some audio_data).
  { destruct (dict_get members "data") as [[| | |b64| |]|]; try discriminate.
    - destruct (b64decode E b64) as [bs|]; [eauto | discriminate].
    - destruct (b64decode E EmptyString) as [bs|]; [eauto | discriminate]. }
  destruct Hb as (audio_bytes & Hb & Hf).
  destruct (match dict_get members "data" with
            | Some x => x | None => JString EmptyString end)
    as [| | |b64| |]; try discriminate.
  rewrite Hb. cbn. rewrite Hf. cbn. cbn in Hr. rewrite Hr. cbn.
  destruct (put (output_queue s) f); cbn.
  - now rewrite (eq_str_audio_not_text _ Ha).
  - reflexivity.
Qed.

(** C1. What the code does when a frame arrives while its queue holds 50
    frames: [await put] suspends the producer with the frame in hand.  In
    [listen_for_responses] the state is the one before the [put] (no
    warning, the queue as it was) and the events that follow are not
    taken; in the loop of [rtc_session] likewise, the frames that follow
    wait.  The handlers for [QueueFull] are never entered. *)
Theorem put_on_full_queue_suspends (ws : WebSocket E) (m : message E)
        (rest : list (ws_event E)) (audio_data f : frame)
        (frames : list frame) (s : state E) :
  websocket s = Some ws ->
  inbound ws = Message m :: rest ->
  decoded_samples E m = Some audio_data ->
  resample_int16 E audio_data
    (py_int_truediv (len audio_data * SAMPLERATE) VOICE_AGENT_OUTPUT_RATE) = Some f ->
  maxsize (output_queue s) = 50 -> qsize (output_queue s) = 50 ->
  maxsize (queue s) = 50 -> qsize (queue s) = 50 ->
  listen_for_responses E s =
    Blocked (WaitPut f) (with_websocket (Some (set_inbound ws rest)) s)
  /\ exists s1,
       rtc_session_stream E (audio_data :: frames) s = Blocked (WaitPut audio_data) s1 /\
       queue s1 = queue s /\
       warnings (log s1) = warnings (log s).
Proof.
  intros Hw Hin Hd Hr Hom Hos Hqm Hqs. split.
  - unfold listen_for_responses, try_except. unfold bind at 1. unfold get_state.
    rewrite Hw, Hin. cbn [listen_loop].
    cbv [bind the_websocket get_state of_option modify ret]. rewrite Hw.
    rewrite (handle_message_audio m audio_data f _ Hd Hr).
    unfold put. cbn [output_queue with_websocket].
    now rewrite (full_at_capacity _ Hom Hos).
  - unfold rtc_session_stream, try_finally, try_except. cbn [rtc_session_loop].
    cbv [bind logger modify]. change (0 + 1) with 1.
    change (1 mod 100 =? 0) with false. cbv [ret].
    set (s0 := with_log _ s).
    destruct (send_audio_returns E audio_data s0)
      as (s1 & H1 & _ & _ & Hq1 & _ & _ & _ & Hlog1).
    rewrite H1. cbv [try_except queue_put bind get_state put]. rewrite Hq1.
    unfold s0. cbn [queue with_log].
    rewrite (full_at_capacity _ Hqm Hqs). cbv [block].
    exists s1. repeat split.
    + rewrite Hq1. reflexivity.
    + rewrite Hlog1. unfold s0. cbn [log with_log].
      now apply warnings_app_other.
Qed.

End FullQueue.

Lemma put_on_full_queue_suspends_witness :
  let m := audio_message [1; 2; 3] in
  let ws := @mkWebSocket demo [Message (E:=demo) m; CloseOK] [] [] false in
  let s := mkState (Some ws) true full_queue full_queue [] [] in
  listen_for_responses demo s =
    Blocked (WaitPut [1; 1; 2; 2; 3; 3])
            (with_websocket (Some (set_inbound ws [CloseOK])) s)
  /\ exists s1,
       rtc_session_stream demo [[1; 2; 3]; [4; 5; 6]] s
         = Blocked (WaitPut [1; 2; 3]) s1 /\
       queue s1 = queue s /\
       warnings (log s1) = warnings (log s).
Proof.
  exact (put_on_full_queue_suspends demo
           (@mkWebSocket demo [Message (E:=demo) (audio_message [1; 2; 3]); CloseOK] [] [] false)
           (audio_message [1; 2; 3]) [CloseOK] [1; 2; 3] [1; 1; 2; 2; 3; 3]
           [[4; 5; 6]]
           (mkState
              (Some (@mkWebSocket demo [Message (E:=demo) (audio_message [1; 2; 3]); CloseOK]
                                  [] [] false))
              true full_queue full_queue [] [])
           eq_refl eq_refl eq_refl eq_refl eq_refl eq_refl eq_refl eq_refl).
Defined.

(** ** Byte layout of the samples *)

Lemma le_bytes_value (z : Z) :
  -32768 <= z <= 32767 -> wrap16 (z mod 256 + 256 * ((z / 256) mod 256)) = z.
Proof.
  intros H. rewrite <- (Z.rem_mul_r z 256 256) by lia.
  change (256 * 256) with 65536. unfold wrap16.
  rewrite Zplus_mod_idemp_l, Z.mod_small; lia.
Qed.

(** Reading back the bytes of an [int16] array gives the array. *)
Lemma frombuffer_tobytes (a : frame) :
  Forall (fun z => -32768 <= z <= 32767) a -> frombuffer (tobytes a) = Some a.
Proof.
  induction 1 as [|z a Hz Ha IH]; [reflexivity|].
  cbn [tobytes flat_map app frombuffer]. fold (tobytes a).
  now rewrite IH, le_bytes_value.
Qed.

(** ** The number of samples after rate conversion *)

(** A frame of 10 ms at 48000 Hz (480 samples) leaves as 160 samples. *)
Example frame_480_to_160 :
  option_map len
    (resample_int16 demo (repeat 7 480)
       (py_int_truediv (len (repeat 7 480) * VOICE_AGENT_INPUT_RATE) SAMPLERATE))
  = Some 160.
Proof. vm_compute. reflexivity. Qed.

Example round_div_ex :
  round_div 5 3 = 2 /\ round_div 4 3 = 1 /\ round_div 5 2 = 2 /\ round_div 7 2 = 4.
Proof. repeat split. Qed.

Lemma send_rate_num (N : Z) :
  0 <= N ->
  py_int_truediv (N * VOICE_AGENT_INPUT_RATE) SAMPLERATE = N / 3.
Proof.
  intros HN. unfold py_int_truediv, VOICE_AGENT_INPUT_RATE, SAMPLERATE.
  rewrite Z.quot_div_nonneg by lia.
  change 48000 with (3 * 16000). now rewrite Z.div_mul_cancel_r by lia.
Qed.

Lemma listen_rate_num (N : Z) :
  0 <= N ->
  py_int_truediv (N * SAMPLERATE) VOICE_AGENT_OUTPUT_RATE = 2 * N.
Proof.
  intros HN. unfold py_int_truediv, VOICE_AGENT_OUTPUT_RATE, SAMPLERATE.
  rewrite Z.quot_div_nonneg by lia.
  replace (N * 48000) with (2 * N * 24000) by lia. now rewrite Z.div_mul by lia.
Qed.

Lemma round_div_third (N : Z) :
  0 <= N ->
  round_div (N * VOICE_AGENT_INPUT_RATE) SAMPLERATE
  = if N mod 3 =? 2 then N / 3 + 1 else N / 3.
Proof.
  intros HN. unfold round_div, VOICE_AGENT_INPUT_RATE, SAMPLERATE.
  change 48000 with (3 * 16000).
  rewrite Z.div_mul_cancel_r, Z.mul_mod_distr_r by lia.
  pose proof (Z.mod_pos_bound N 3 ltac:(lia)) as Hr.
  destruct (Z.eqb_spec (N mod 3) 2) as [H2|H2].
  - rewrite H2. reflexivity.
  - destruct (Z.ltb_spec (2 * (N mod 3 * 16000)) (3 * 16000)); [reflexivity|lia].
Qed.

Lemma round_div_double (N : Z) :
  0 <= N -> round_div (N * SAMPLERATE) VOICE_AGENT_OUTPUT_RATE = 2 * N.
Proof.
  intros HN. unfold round_div, VOICE_AGENT_OUTPUT_RATE, SAMPLERATE.
  replace (N * 48000) with (2 * N * 24000) by lia.
  rewrite Z.div_mul, Z.mod_mul by lia. reflexivity.
Qed.

Lemma len_map {A B} (g : A -> B) (l : list A) : len (map g l) = len l.
Proof. unfold len. now rewrite length_map. Qed.

Section ResampleLength.

Variable E : Externals.
Hypothesis resample_num : resample_returns_num E.

Lemma resample_int16_len (audio_data : frame) (num : Z) (y : frame) :
  resample_int16 E audio_data num = Some y -> len y = num.
Proof.
  unfold resample_int16.
  destruct (resample E (astype_float32 audio_data) num) as [y0|] eqn:Hy; [|discriminate].
  intros [= <-]. unfold astype_int16. rewrite len_map. eauto.
Qed.

(** An audio message whose samples the resampler refuses. *)
Lemma handle_message_resample_raises (m : message E) (audio_data : frame) (s : state E) :
  decoded_samples E m = Some audio_data ->
  resample_int16 E audio_data
    (py_int_truediv (len audio_data * SAMPLERATE) VOICE_AGENT_OUTPUT_RATE) = None ->
  handle_message E m s = Raise (Exception "ValueError") s.
Proof.
  unfold decoded_samples. intros Hd Hr. run.
  destruct (json_loads E m) as [[| | | | |members]|]; try discriminate.
  destruct (eq_str (dict_get members "type") "audio") eqn:Ha; try discriminate.
  cbn.
  assert (Hb : exists audio_bytes,
             match match dict_get members "data" with
                   | Some x => x | None => JString EmptyString end with
             | JString b64 => b64decode E b64
             | _ => None
             end = Some audio_bytes /\ frombuffer audio_bytes = Some audio_data).
  { destruct (dict_get members "data") as [[| | |b64| |]|]; try discriminate.
    - destruct (b64decode E b64) as [bs|]; [eauto | discriminate].
    - destruct (b64decode E EmptyString) as [bs|]; [eauto | discriminate]. }
  destruct Hb as (audio_bytes & Hb & Hf).
  destruct (match dict_get members "data" with
            | Some x => x | None => JString EmptyString end)
    as [| | |b64| |]; try discriminate.
  rewrite Hb. cbn. rewrite Hf. cbn. cbn in Hr. rewrite Hr. reflexivity.
Qed.

(** C5 (amended). For an input of [N] samples the resampler is asked for
    [int(N * r_out / r_in)] samples, the quotient cut toward zero, and this
    covers every input: either the resampler returns, or it raises.
    - When it returns: from 48000 to 16000 in [send_audio] the frame sent
      has exactly [N / 3] (floor) samples, which is [round(N / 3)] unless
      [N mod 3 = 2], where it is one less; from 24000 to 48000 in
      [listen_for_responses] the frame enqueued has exactly [2 N] samples,
      which is [round(2 N)].
    - When it raises, no frame is produced: [send_audio] logs the error
      and sends nothing; [listen_for_responses] logs the error, clears
      [connected] and ends, the events that follow left unprocessed.
    - A resampler that refuses a request for 0 samples raises whenever
      [N < 3] in [send_audio] and whenever [N = 0] in
      [listen_for_responses]. *)
Theorem resampled_length_truncates (audio_data : frame) :
  let N := len audio_data in
  (forall (s : state E) ws y,
     connected s = true -> websocket s = Some ws -> send_script ws = [] ->
     resample_int16 E audio_data
       (py_int_truediv (N * VOICE_AGENT_INPUT_RATE) SAMPLERATE) = Some y ->
     send_audio E audio_data s =
       Ret tt
         (with_log (log s ++ [Log DEBUG "Sent samples to voice agent"])
            (with_websocket
               (Some (mkWebSocket (inbound ws) []
                        (outbound ws ++
                         [json_dumps E
                            (JObject [("type", JString "audio");
                                      ("data", JString (b64encode E (tobytes y)))])])
                        (closed ws)))
               s)) /\
     len y = N / 3 /\
     (N mod 3 <> 2 -> len y = round_div (N * VOICE_AGENT_INPUT_RATE) SAMPLERATE) /\
     (N mod 3 = 2 -> len y = round_div (N * VOICE_AGENT_INPUT_RATE) SAMPLERATE - 1)) /\
  (forall (s : state E) m y,
     decoded_samples E m = Some audio_data ->
     full (output_queue s) = false ->
     resample_int16 E audio_data
       (py_int_truediv (N * SAMPLERATE) VOICE_AGENT_OUTPUT_RATE) = Some y ->
     handle_message E m s =
       Ret tt
         (with_log (log s ++ [Log DEBUG "Received samples from voice agent"])
            (with_output_queue (enqueue (output_queue s) y) s)) /\
     len y = 2 * N /\
     len y = round_div (N * SAMPLERATE) VOICE_AGENT_OUTPUT_RATE) /\
  (forall (s : state E) ws,
     connected s = true -> websocket s = Some ws ->
     resample_int16 E audio_data
       (py_int_truediv (N * VOICE_AGENT_INPUT_RATE) SAMPLERATE) = None ->
     send_audio E audio_data s =
       Ret tt (with_log (log s ++ [Log ERROR "Error sending audio"]) s)) /\
  (forall (s : state E) ws m rest,
     websocket s = Some ws -> inbound ws = Message m :: rest ->
     decoded_samples E m = Some audio_data ->
     resample_int16 E audio_data
       (py_int_truediv (N * SAMPLERATE) VOICE_AGENT_OUTPUT_RATE) = None ->
     listen_for_responses E s =
       Ret tt
         (with_connected false
            (with_log (log s ++ [Log ERROR "Error listening for responses"])
               (with_websocket (Some (set_inbound ws rest)) s)))) /\
  ((forall x, resample E x 0 = None) ->
   (N < 3 ->
    resample_int16 E audio_data
      (py_int_truediv (N * VOICE_AGENT_INPUT_RATE) SAMPLERATE) = None) /\
   (N = 0 ->
    resample_int16 E audio_data
      (py_int_truediv (N * SAMPLERATE) VOICE_AGENT_OUTPUT_RATE) = None)).
Proof.
  intros N. pose proof (len_nonneg audio_data) as HN. fold N in HN.
  split; [|split; [|split; [|split]]].
  - intros s ws y Hc Hw Hs Hr. split.
    + destruct s as [w c oq q lg so]; cbn in *; subst. run. cbn [negb orb].
      fold N. cbn in Hr. rewrite Hr. cbn. rewrite Hs. reflexivity.
    + apply resample_int16_len in Hr. rewrite send_rate_num in Hr by assumption.
      rewrite round_div_third by assumption. repeat split; try assumption.
      * intros H2. destruct (Z.eqb_spec (N mod 3) 2); [contradiction|assumption].
      * intros H2. rewrite H2. cbn. lia.
  - intros s m y Hd Hfull Hr. split.
    + rewrite (handle_message_audio E m audio_data y s Hd Hr).
      unfold put. now rewrite Hfull.
    + apply resample_int16_len in Hr. rewrite listen_rate_num in Hr by assumption.
      rewrite round_div_double by assumption. split; assumption.
  - intros s ws Hc Hw Hr.
    destruct s as [w c oq q lg so]; cbn in *; subst. run. cbn [negb orb].
    fold N. cbn in Hr. now rewrite Hr.
  - intros s ws m rest Hw Hin Hd Hr.
    rewrite (listen_for_responses_raise E ws (Exception "ValueError") s
               (with_websocket (Some (set_inbound ws rest)) s) Hw); [reflexivity|].
    rewrite Hin. cbn [listen_loop].
    cbv [bind the_websocket get_state of_option modify ret]. rewrite Hw.
    now rewrite (handle_message_resample_raises m audio_data _ Hd Hr).
  - intros Hzero. split.
    + intros H3. rewrite send_rate_num by assumption.
      rewrite Z.div_small by lia. unfold resample_int16. now rewrite Hzero.
    + intros H0. rewrite listen_rate_num by assumption. rewrite H0.
      unfold resample_int16. now rewrite Hzero.
Qed.

End ResampleLength.

Lemma hold_resample_returns_num : resample_returns_num demo.
Proof.
  intros x num y. cbn. unfold hold_resample.
  destruct ((num <=? 0) || (len x =? 0)) eqn:Hg; [discriminate|].
  intros [= <-]. rewrite len_map. unfold len. rewrite length_seq.
  apply orb_false_iff in Hg. destruct Hg as [Hg _].
  apply Z.leb_gt in Hg. lia.
Qed.

(** C5 (counterexample). A frame of five samples at 48000 Hz is sent as
    one sample, where rounding [5 / 3] would give two. *)
Lemma five_samples_sent_as_one :
  let ws := @mkWebSocket demo [] [] [] false in
  let s := mkState (Some ws) true (Queue_init 50) (Queue_init 50) [] [] in
  exists s' ws',
    send_audio demo [10; 20; 30; 40; 50] s = Ret tt s' /\
    websocket s' = Some ws' /\
    outbound ws' = [audio_message [10]] /\
    len [10] = 1 /\
    round_div (len [10; 20; 30; 40; 50] * VOICE_AGENT_INPUT_RATE) SAMPLERATE = 2.
Proof. eexists _, _. repeat split. Qed.

Lemma resampled_length_truncates_witness :
  let ws := @mkWebSocket demo [] [] [] false in
  let s := mkState (Some ws) true (Queue_init 50) (Queue_init 50) [] [] in
  (send_audio demo [10; 20; 30; 40; 50; 60] s =
     Ret tt
       (with_log (log s ++ [Log DEBUG "Sent samples to voice agent"])
          (with_websocket
             (Some (mkWebSocket (inbound ws) []
                      (outbound ws ++
                       [json_dumps demo
                          (JObject [("type", JString "audio");
                                    ("data", JString (b64encode demo (tobytes [10; 40])))])])
                      (closed ws)))
             s)) /\
   len [10; 40] = len [10; 20; 30; 40; 50; 60] / 3 /\
   (len [10; 20; 30; 40; 50; 60] mod 3 <> 2 ->
    len [10; 40]
    = round_div (len [10; 20; 30; 40; 50; 60] * VOICE_AGENT_INPUT_RATE) SAMPLERATE) /\
   (len [10; 20; 30; 40; 50; 60] mod 3 = 2 ->
    len [10; 40]
    = round_div (len [10; 20; 30; 40; 50; 60] * VOICE_AGENT_INPUT_RATE) SAMPLERATE - 1)) /\
  send_audio demo [10; 20] s =
    Ret tt (with_log (log s ++ [Log ERROR "Error sending audio"]) s).
Proof.
  split.
  - exact (proj1 (resampled_length_truncates demo hold_resample_returns_num
                    [10; 20; 30; 40; 50; 60])
                 (mkState (Some (@mkWebSocket demo [] [] [] false)) true
                          (Queue_init 50) (Queue_init 50) [] [])
                 (@mkWebSocket demo [] [] [] false) [10; 40]
                 eq_refl eq_refl eq_refl eq_refl).
  - exact (proj1 (proj2 (proj2 (resampled_length_truncates demo
                                  hold_resample_returns_num [10; 20])))
                 (mkState (Some (@mkWebSocket demo [] [] [] false)) true
                          (Queue_init 50) (Queue_init 50) [] [])
                 (@mkWebSocket demo [] [] [] false)
                 eq_refl eq_refl
                 (proj1 (proj2 (proj2 (proj2 (proj2
                           (resampled_length_truncates demo hold_resample_returns_num
                              [10; 20]))))
                           (fun x => eq_refl))
                        eq_refl)).
Defined.

(** ** Quantization of the resampled samples *)

Lemma wrap16_in_range (z : Z) : -32768 <= z <= 32767 -> wrap16 z = z.
Proof. intros H. unfold wrap16. rewrite Z.mod_small; lia. Qed.

Lemma wrap16_above (z : Z) : 32767 < z <= 98303 -> wrap16 z = z - 65536.
Proof.
  intros H. unfold wrap16.
  replace (z + 32768) with (z - 32768 + 1 * 65536) by lia.
  rewrite Z.mod_add, Z.mod_small; lia.
Qed.

Lemma wrap16_below (z : Z) : -98304 <= z < -32768 -> wrap16 z = z + 65536.
Proof.
  intros H. unfold wrap16.
  replace (z + 32768) with (z + 98304 + (-1) * 65536) by lia.
  rewrite Z.mod_add, Z.mod_small; lia.
Qed.

Lemma wrap16_int16 (z : Z) : -32768 <= wrap16 z <= 32767.
Proof.
  unfold wrap16. pose proof (Z.mod_pos_bound (z + 32768) 65536 ltac:(lia)). lia.
Qed.

(** C8 (counterexample). Band-limited interpolation of the samples
    [32767, 32767, -32768] to twice the rate overshoots to 54612 at the
    second output; the frame enqueued holds -10924 there, not 32767. *)
Lemma overshoot_is_not_clipped :
  let m := audio_message [32767; 32767; -32768] in
  let s := @mkState fourier None true (Queue_init 50) (Queue_init 50) [] [] in
  (exists y v,
     resample fourier (astype_float32 [32767; 32767; -32768]) 6 = Some y /\
     nth_error y 1 = Some v /\ Qtrunc v = 54612 /\ clip16 (Qtrunc v) = 32767) /\
  exists s',
    handle_message fourier m s = Ret tt s' /\
    items (output_queue s')
    = [[32767; -10924; 32767; -10923; -32768; -10923]].
Proof.
  split.
  - eexists _, _. repeat split.
  - eexists. split; reflexivity.
Qed.

(** C8 (amended). The resampler's output is stored through an unchecked
    cast to [int16], with no clipping: the stored frame is the cast of
    each resampled value, in order.  A value whose integer part lies in
    [-32768, 32767] is stored as that integer part; a value beyond the
    range is not saturated: its integer part is reduced modulo [2^16], so
    an overshoot above 32767 is stored as a negative sample and one below
    -32768 as a positive sample. *)
Theorem resampled_samples_are_cast (E : Externals) (audio_data : frame)
        (num : Z) (y : list float) :
  resample E (astype_float32 audio_data) num = Some y ->
  resample_int16 E audio_data num = Some (map astype_int16_1 y) /\
  forall v, In v y ->
    -32768 <= astype_int16_1 v <= 32767 /\
    (-32768 <= Qtrunc v <= 32767 -> astype_int16_1 v = Qtrunc v) /\
    (32767 < Qtrunc v < 98303 ->
     astype_int16_1 v = Qtrunc v - 65536 /\ astype_int16_1 v <> clip16 (Qtrunc v)) /\
    (-98304 < Qtrunc v < -32768 ->
     astype_int16_1 v = Qtrunc v + 65536 /\ astype_int16_1 v <> clip16 (Qtrunc v)).
Proof.
  intros Hy. split.
  - unfold resample_int16. now rewrite Hy.
  - intros v _. unfold astype_int16_1. repeat split.
    + apply wrap16_int16.
    + apply wrap16_int16.
    + apply wrap16_in_range.
    + apply wrap16_above; lia.
    + rewrite wrap16_above by lia. unfold clip16. lia.
    + apply wrap16_below; lia.
    + rewrite wrap16_below by lia. unfold clip16. lia.
Qed.

Lemma resampled_samples_are_cast_witness :
  resample_int16 fourier [32767; 32767; -32768] 6
  = Some [32767; -10924; 32767; -10923; -32768; -10923].
Proof.
  exact (proj1 (resampled_samples_are_cast fourier [32767; 32767; -32768] 6 _
                  eq_refl)).
Defined.

(** * Further properties of the code *)

(** ** Interleaved calls on an AudioBuffer *)

Example run_calls_ex :
  run_calls [AddFrame [1; 2; 3]; GetChunk; GetChunk; AddFrame [4]; GetPaddedChunk;
             GetPaddedChunk]
            (AudioBuffer_init 2)
  = Some ([mkDelivered [1; 2] 2; mkDelivered [3; 4] 2; mkDelivered [0; 0] 0],
          AudioBuffer_init 2).
Proof. reflexivity. Qed.

(** X1. For a positive block size and any interleaving of [add_frame],
    [get_chunk] and [get_padded_chunk] calls, no call raises, every frame
    returned has exactly [blocksize] samples, the samples it does not take
    from the buffer are zeros at its end, and the samples taken, in the
    order of the calls, followed by what the buffer still holds, are the
    samples initially buffered followed by the frames added: nothing is
    lost, duplicated or reordered. *)
Theorem run_calls_conserves (calls : list buffer_call) : forall b : AudioBuffer,
  0 < blocksize b ->
  exists ds b',
    run_calls calls b = Some (ds, b') /\
    blocksize b' = blocksize b /\
    Forall (fun d =>
              len (out d) = blocksize b /\
              0 <= taken d <= blocksize b /\
              skipn (Z.to_nat (taken d)) (out d)
              = repeat 0 (Z.to_nat (blocksize b - taken d))) ds /\
    List.concat (map (fun d => firstn (Z.to_nat (taken d)) (out d)) ds) ++ buffer b'
    = buffer b ++ List.concat (added calls).
Proof.
  induction calls as [|c calls IH]; intros b Hbs.
  - exists [], b. cbn. repeat split; auto. now rewrite app_nil_r.
  - pose proof (len_nonneg (buffer b)) as H0.
    destruct c as [f| |]; cbn [run_calls added].
    + destruct (IH (add_frame b f)) as (ds & b' & Hrun & Hb & Hall & Hcat); [exact Hbs|].
      exists ds, b'. cbn in *. repeat split; auto.
      rewrite Hcat. now rewrite <- app_assoc.
    + destruct (Z.lt_ge_cases (len (buffer b)) (blocksize b)) as [Hlt|Hge].
      * rewrite get_chunk_None by assumption. apply IH. exact Hbs.
      * rewrite get_chunk_Some by assumption.
        remember (Z.to_nat (blocksize b)) as n eqn:Hn.
        destruct (IH (set_buffer b (skipn n (buffer b))))
          as (ds & b' & Hrun & Hb & Hall & Hcat); [exact Hbs|].
        rewrite Hrun. eexists _, b'. split; [reflexivity|].
        cbn [blocksize set_buffer buffer] in *.
        assert (Hlen : List.length (firstn n (buffer b)) = n).
        { rewrite length_firstn. unfold len in *. lia. }
        repeat split; auto.
        { constructor; [|exact Hall]. cbn [out taken]. rewrite <- Hn.
          repeat split; try lia.
          - unfold len. rewrite Hlen. lia.
          - rewrite Z.sub_diag. cbn. apply skipn_all2.
            exact (Nat.eq_le_incl _ _ Hlen). }
        { cbn [map List.concat out taken]. rewrite <- Hn.
          rewrite firstn_all2 by lia. rewrite <- app_assoc, Hcat.
          now rewrite app_assoc, firstn_skipn. }
    + rewrite get_padded_chunk_eq by lia. cbv zeta.
      remember (Z.to_nat (blocksize b)) as n eqn:Hn.
      destruct (IH (set_buffer b (skipn n (buffer b))))
        as (ds & b' & Hrun & Hb & Hall & Hcat); [exact Hbs|].
      rewrite Hrun. eexists _, b'. split; [reflexivity|].
      cbn [blocksize set_buffer buffer] in *.
      remember (Z.to_nat (Z.min (len (buffer b)) (blocksize b))) as m eqn:Hm.
      assert (Hlen : List.length (firstn n (buffer b)) = m).
      { rewrite length_firstn. unfold len in *. lia. }
      repeat split; auto.
      { constructor; [|exact Hall]. cbn [out taken]. rewrite <- Hm.
        repeat split; try lia.
        - rewrite len_app. unfold len at 1 2. rewrite repeat_length, Hlen. lia.
        - rewrite <- Hlen at 1. rewrite skipn_app, Nat.sub_diag, skipn_all2 by lia.
          cbn [skipn app]. f_equal. rewrite Hlen. lia. }
      { cbn [map List.concat out taken]. rewrite <- Hm. rewrite <- Hlen at 1.
        rewrite firstn_app, Nat.sub_diag, firstn_all2 by lia.
        cbn [firstn]. rewrite !app_nil_r, <- app_assoc, Hcat.
        now rewrite app_assoc, firstn_skipn. }
Qed.

Lemma run_calls_conserves_witness :
  exists ds b',
    run_calls [AddFrame [1; 2; 3]; GetChunk; AddFrame [4]; GetPaddedChunk]
              (AudioBuffer_init 2) = Some (ds, b') /\
    blocksize b' = 2 /\
    Forall (fun d =>
              len (out d) = 2 /\
              0 <= taken d <= 2 /\
              skipn (Z.to_nat (taken d)) (out d) = repeat 0 (Z.to_nat (2 - taken d))) ds /\
    List.concat (map (fun d => firstn (Z.to_nat (taken d)) (out d)) ds) ++ buffer b'
    = [] ++ List.concat (added [AddFrame [1; 2; 3]; GetChunk; AddFrame [4];
                                GetPaddedChunk]).
Proof.
  apply (run_calls_conserves
           [AddFrame [1; 2; 3]; GetChunk; AddFrame [4]; GetPaddedChunk]
           (AudioBuffer_init 2)).
  reflexivity.
Defined.

(** X2. With a block size of zero [get_chunk] never returns [None]: every
    call returns an empty chunk and leaves the buffer as it is, so a loop
    that calls it until [None] never ends, whatever is buffered. *)
Theorem get_chunk_zero_blocksize (b : AudioBuffer) (n : nat) :
  blocksize b = 0 ->
  get_chunk b = Some ([], b) /\
  get_chunks n b = (repeat [] n, b).
Proof.
  intros Hbs.
  assert (Hget : get_chunk b = Some ([], b)).
  { unfold get_chunk. rewrite Hbs.
    destruct (Z.leb_spec 0 (len (buffer b))); [|pose proof (len_nonneg (buffer b)); lia].
    rewrite slice_to_nonneg, slice_from_nonneg by lia. cbn.
    destruct b as [bs buf]. cbn in *. now subst bs. }
  split; [exact Hget|].
  induction n as [|n IH]; [reflexivity|].
  cbn [get_chunks repeat]. now rewrite Hget, IH.
Qed.

Lemma get_chunk_zero_blocksize_witness :
  get_chunk {| blocksize := 0; buffer := [5; 6] |}
    = Some ([], {| blocksize := 0; buffer := [5; 6] |}) /\
  get_chunks 4 {| blocksize := 0; buffer := [5; 6] |}
    = (repeat [] 4, {| blocksize := 0; buffer := [5; 6] |}).
Proof.
  apply (get_chunk_zero_blocksize {| blocksize := 0; buffer := [5; 6] |} 4).
  reflexivity.
Defined.

(** ** The playback callback *)

Lemma fill_from_queue_all (q : Queue) : forall (b : AudioBuffer) (frames_added : Z),
  fill_from_queue (List.length (items q)) q b frames_added
  = ({| maxsize := maxsize q; items := [] |},
     add_frames b (items q),
     frames_added + len (List.concat (items q))).
Proof.
  destruct q as [n its]. cbn [items maxsize].
  induction its as [|d its IH]; intros b fa.
  - cbn. now rewrite Z.add_0_r.
  - cbn [List.length fill_from_queue]. unfold get_nowait. cbn [items maxsize].
    rewrite IH. cbn [List.concat add_frames fold_left].
    rewrite len_app. f_equal. lia.
Qed.

Example callback_ex :
  callback 2 false
    (mkPlayer {| maxsize := 50; items := [[1; 2; 3]; [4]] |} (AudioBuffer_init 2) 0 [])
  = Some ([1; 2],
          mkPlayer {| maxsize := 50; items := [] |}
                   {| blocksize := 2; buffer := [3; 4] |} 2
                   [Log DEBUG "Added frames to buffer"]).
Proof. reflexivity. Qed.

(** X3. A callback asked for [blocksize] frames (a positive number) never
    raises.  It empties the queue into the buffer and writes exactly
    [blocksize] samples: with [data] the buffered samples followed by the
    queued frames, it writes the first [blocksize] samples of [data], keeps
    the rest buffered and adds [blocksize] to [frames_played] when [data]
    has that many; otherwise it writes all of [data] followed by zeros,
    leaves the buffer empty and does not count the samples as played. *)
Theorem callback_writes_block (frames : Z) (status : bool) (p : player) :
  0 < blocksize (player_buffer p) ->
  frames = blocksize (player_buffer p) ->
  let data := buffer (player_buffer p) ++ List.concat (items (player_queue p)) in
  exists outdata p',
    callback frames status p = Some (outdata, p') /\
    items (player_queue p') = [] /\
    blocksize (player_buffer p') = frames /\
    len outdata = frames /\
    (frames <= len data ->
     outdata = firstn (Z.to_nat frames) data /\
     buffer (player_buffer p') = skipn (Z.to_nat frames) data /\
     frames_played p' = frames_played p + frames) /\
    (len data < frames ->
     outdata = data ++ repeat 0 (Z.to_nat (frames - len data)) /\
     buffer (player_buffer p') = [] /\
     frames_played p' = frames_played p).
Proof.
  intros Hbs Hframes data. unfold callback.
  rewrite fill_from_queue_all, add_frames_buffer. fold data.
  set (b1 := set_buffer (player_buffer p) data).
  assert (Hb1 : blocksize b1 = frames) by (now subst frames).
  destruct (Z.lt_ge_cases (len data) frames) as [Hlt|Hge].
  - rewrite (get_chunk_None b1) by (cbn; lia).
    rewrite (get_padded_chunk_pads b1) by (cbn; lia).
    cbn [buffer set_buffer b1]. rewrite Hb1.
    assert (Hlen : len (data ++ repeat 0 (Z.to_nat (frames - len data))) = frames).
    { rewrite len_app. unfold len at 2. rewrite repeat_length.
      pose proof (len_nonneg data). lia. }
    unfold assign_outdata. rewrite Hlen, Z.eqb_refl.
    eexists _, _. split; [reflexivity|].
    cbn [player_queue player_buffer frames_played items buffer blocksize set_buffer].
    repeat split; auto; lia.
  - rewrite (get_chunk_Some b1) by (cbn; lia).
    cbn [buffer set_buffer b1]. rewrite Hb1.
    assert (Hlen : len (firstn (Z.to_nat frames) data) = frames).
    { apply len_firstn. lia. }
    unfold assign_outdata. rewrite Hlen, Z.eqb_refl.
    eexists _, _. split; [reflexivity|].
    cbn [player_queue player_buffer frames_played items buffer blocksize set_buffer].
    repeat split; auto; lia.
Qed.

Lemma callback_writes_block_witness :
  let p := mkPlayer {| maxsize := 50; items := [[1; 2; 3]] |} (AudioBuffer_init 480) 0 [] in
  let data := [] ++ List.concat [[1; 2; 3]] in
  exists outdata p',
    callback 480 false p = Some (outdata, p') /\
    items (player_queue p') = [] /\
    blocksize (player_buffer p') = 480 /\
    len outdata = 480 /\
    (480 <= len data ->
     outdata = firstn (Z.to_nat 480) data /\
     buffer (player_buffer p') = skipn (Z.to_nat 480) data /\
     frames_played p' = frames_played p + 480) /\
    (len data < 480 ->
     outdata = data ++ repeat 0 (Z.to_nat (480 - len data)) /\
     buffer (player_buffer p') = [] /\
     frames_played p' = frames_played p).
Proof.
  apply (callback_writes_block 480 false
           (mkPlayer {| maxsize := 50; items := [[1; 2; 3]] |} (AudioBuffer_init 480) 0 []));
    reflexivity.
Defined.

(** ** The text bridge *)

Section TextBridge.

Variable E : Externals.

(** X4. The text bridge forwards a chat message as one [text] envelope
    whether or not the client is marked connected.  Unlike [send_audio],
    it lets failures out of the task: an exception of the send propagates,
    and when reading the chat stream fails the error is logged, nothing is
    sent, and the send of [None] raises [TypeError]. *)
Theorem text_bridge_forwards (ws : WebSocket E) (s : state E) :
  websocket s = Some ws ->
  (forall text,
     hd None (send_script ws) = None ->
     process_and_send E (inr text) s =
     Ret tt (with_websocket
               (Some (mkWebSocket (inbound ws) (tl (send_script ws))
                        (outbound ws ++ [json_dumps E (text_envelope text)])
                        (closed ws)))
               (with_log (log s ++ [Log INFO "[CHAT]"]) s))) /\
  (forall text e script,
     send_script ws = Some e :: script ->
     process_and_send E (inr text) s =
     Raise e (with_websocket
                (Some (mkWebSocket (inbound ws) script (outbound ws) (closed ws)))
                (with_log (log s ++ [Log INFO "[CHAT]"]) s))) /\
  (forall e,
     process_and_send E (inl e) s =
     Raise (Exception "TypeError")
           (with_log (log s ++ [Log ERROR "Error processing chat message"]) s)).
Proof.
  intros Hw. destruct s as [w c oq q lg so]. cbn in Hw. subst w.
  destruct ws as [inb script out0 cl]. cbn [send_script inbound outbound closed].
  repeat split.
  - intros text Hhd. destruct script as [|[e|] script]; try discriminate; reflexivity.
  - intros text e script' ->. reflexivity.
Qed.

Hypothesis Hjson : loads_dumps E.

(** X5. The envelope the text bridge writes is read back by the receive
    loop as a text message: handled by [listen_for_responses], it prints
    the chat message itself and changes nothing else. *)
Theorem text_envelope_round_trip (text : string) (s : state E) :
  exists m,
    process_chat_message E (inr text) s
      = Ret (Some m) (with_log (log s ++ [Log INFO "[CHAT]"]) s) /\
    forall s2 : state E,
      handle_message E m s2 = Ret tt (with_stdout (stdout s2 ++ [JString text]) s2).
Proof.
  eexists. split; [reflexivity|].
  intros s2. run. rewrite Hjson. reflexivity.
Qed.

End TextBridge.

Lemma demo_loads_dumps : loads_dumps demo.
Proof. intros v. reflexivity. Qed.

Lemma text_bridge_forwards_witness :
  let ws := @mkWebSocket demo [] [] [] false in
  let s := mkState (Some ws) false (Queue_init 50) (Queue_init 50) [] [] in
  process_and_send demo (inr "hello") s =
  Ret tt (with_websocket
            (Some (mkWebSocket (inbound ws) (tl (send_script ws))
                     (outbound ws ++ [json_dumps demo (text_envelope "hello")])
                     (closed ws)))
            (with_log (log s ++ [Log INFO "[CHAT]"]) s)).
Proof.
  exact (proj1 (text_bridge_forwards demo (@mkWebSocket demo [] [] [] false)
                  (mkState (Some (@mkWebSocket demo [] [] [] false)) false
                           (Queue_init 50) (Queue_init 50) [] [])
                  eq_refl)
               "hello" eq_refl).
Defined.

Lemma text_envelope_round_trip_witness :
  exists m,
    process_chat_message demo (inr "hello") (VoiceAgentClient_init demo)
      = Ret (Some m)
            (with_log (log (VoiceAgentClient_init demo) ++ [Log INFO "[CHAT]"])
                      (VoiceAgentClient_init demo)) /\
    forall s2 : state demo,
      handle_message demo m s2
      = Ret tt (with_stdout (stdout s2 ++ [JString "hello"]) s2).
Proof.
  exact (text_envelope_round_trip demo demo_loads_dumps "hello"
           (VoiceAgentClient_init demo)).
Defined.

(** ** The audio envelope, written and read back *)

Lemma tobytes_bytes (a : frame) : Forall (fun z => 0 <= z < 256) (tobytes a).
Proof.
  induction a as [|z a IH]; [constructor|].
  cbn [tobytes flat_map app]. fold (tobytes a).
  repeat constructor; try apply Z.mod_pos_bound; try lia; exact IH.
Qed.

Lemma resample_int16_is_int16 (E : Externals) (audio_data : frame) (num : Z) (y : frame) :
  resample_int16 E audio_data num = Some y -> Forall is_int16 y.
Proof.
  unfold resample_int16.
  destruct (resample E (astype_float32 audio_data) num) as [y0|]; [|discriminate].
  intros [= <-]. unfold astype_int16. apply Forall_map, Forall_forall.
  intros v _. apply wrap16_int16.
Qed.

Section AudioEnvelope.

Variable E : Externals.
Hypothesis Hjson : loads_dumps E.
Hypothesis Hb64 : b64_round_trip E.

Lemma decoded_audio_envelope (y : frame) :
  Forall is_int16 y ->
  decoded_samples E (json_dumps E (audio_envelope E y)) = Some y.
Proof.
  intros Hy. unfold decoded_samples. rewrite Hjson. cbn.
  rewrite Hb64 by apply tobytes_bytes. now apply frombuffer_tobytes.
Qed.

(** X6. What [send_audio] writes, the receive loop can read: when the
    client is ready and the send succeeds, exactly one message is added to
    the channel, and the audio branch of [listen_for_responses] decodes
    that message to the very samples that were encoded (the resampled
    frame), which it then converts and enqueues. *)
Theorem audio_envelope_round_trip (audio_data y : frame) (ws : WebSocket E)
        (s : state E) :
  connected s = true ->
  websocket s = Some ws ->
  hd None (send_script ws) = None ->
  resample_int16 E audio_data
    (py_int_truediv (len audio_data * VOICE_AGENT_INPUT_RATE) SAMPLERATE) = Some y ->
  let m := json_dumps E (audio_envelope E y) in
  send_audio E audio_data s =
    Ret tt (with_log (log s ++ [Log DEBUG "Sent samples to voice agent"])
              (with_websocket
                 (Some (mkWebSocket (inbound ws) (tl (send_script ws))
                          (outbound ws ++ [m]) (closed ws)))
                 s)) /\
  decoded_samples E m = Some y /\
  forall (s2 : state E) (f : frame),
    resample_int16 E y
      (py_int_truediv (len y * SAMPLERATE) VOICE_AGENT_OUTPUT_RATE) = Some f ->
    full (output_queue s2) = false ->
    handle_message E m s2 =
    Ret tt (with_log (log s2 ++ [Log DEBUG "Received samples from voice agent"])
              (with_output_queue (enqueue (output_queue s2) f) s2)).
Proof.
  intros Hc Hw Hhd Hr m.
  assert (Hdec : decoded_samples E m = Some y).
  { apply decoded_audio_envelope. eapply resample_int16_is_int16. exact Hr. }
  repeat split.
  - destruct s as [w c oq q lg so]; cbn in *; subst. run. cbn [negb orb].
    cbn in Hr. rewrite Hr. cbn.
    destruct (send_script ws) as [|[e|] script]; try discriminate; reflexivity.
  - exact Hdec.
  - intros s2 f Hf Hfull.
    rewrite (handle_message_audio E m y f s2 Hdec Hf).
    unfold put. now rewrite Hfull.
Qed.

End AudioEnvelope.

Lemma demo_b64_round_trip : b64_round_trip demo.
Proof.
  intros b Hb. cbn. unfold bytes_of_chars, chars_of_bytes.
  rewrite list_ascii_of_string_of_list_ascii, map_map. f_equal.
  induction Hb as [|z b Hz Hb IH]; [reflexivity|].
  cbn [map]. rewrite IH, nat_ascii_embedding by lia. f_equal. lia.
Qed.

Lemma audio_envelope_round_trip_witness :
  let ws := @mkWebSocket demo [] [] [] false in
  let s := mkState (Some ws) true (Queue_init 50) (Queue_init 50) [] [] in
  let m := json_dumps demo (audio_envelope demo [10; 40]) in
  send_audio demo [10; 20; 30; 40; 50; 60] s =
    Ret tt (with_log (log s ++ [Log DEBUG "Sent samples to voice agent"])
              (with_websocket
                 (Some (mkWebSocket (inbound ws) (tl (send_script ws))
                          (outbound ws ++ [m]) (closed ws)))
                 s)) /\
  decoded_samples demo m = Some [10; 40] /\
  forall (s2 : state demo) (f : frame),
    resample_int16 demo [10; 40]
      (py_int_truediv (len [10; 40] * SAMPLERATE) VOICE_AGENT_OUTPUT_RATE) = Some f ->
    full (output_queue s2) = false ->
    handle_message demo m s2 =
    Ret tt (with_log (log s2 ++ [Log DEBUG "Received samples from voice agent"])
              (with_output_queue (enqueue (output_queue s2) f) s2)).
Proof.
  exact (audio_envelope_round_trip demo demo_loads_dumps demo_b64_round_trip
           [10; 20; 30; 40; 50; 60] [10; 40]
           (@mkWebSocket demo [] [] [] false)
           (mkState (Some (@mkWebSocket demo [] [] [] false)) true
                    (Queue_init 50) (Queue_init 50) [] [])
           eq_refl eq_refl eq_refl eq_refl).
Defined.

(** ** More on listen_for_responses *)

Lemma list_pair_ind {A} (P : list A -> Prop) :
  P [] -> (forall a, P [a]) -> (forall a b l, P l -> P (a :: b :: l)) ->
  forall l, P l.
Proof.
  intros H0 H1 H2 l.
  enough (H : P l /\ forall a, P (a :: l)) by apply H.
  induction l as [|x l [IHl IHc]]; split; auto.
Qed.

(** [np.frombuffer] raises exactly on a buffer of odd size. *)
Lemma frombuffer_None_odd (b : list byte) :
  frombuffer b = None <-> Nat.odd (List.length b) = true.
Proof.
  induction b as [|x|x y l IH] using list_pair_ind.
  - cbn. split; discriminate.
  - cbn. split; reflexivity.
  - cbn [frombuffer List.length]. rewrite Nat.odd_succ_succ.
    destruct (frombuffer l); rewrite <- IH; split; congruence.
Qed.

Section ListenMore.

Variable E : Externals.

Lemma listen_loop_message (ws : WebSocket E) (m : message E)
      (rest : list (ws_event E)) (s : state E) :
  websocket s = Some ws ->
  listen_loop E (Message m :: rest) s =
  match handle_message E m (with_websocket (Some (set_inbound ws rest)) s) with
  | Ret _ s2 => listen_loop E rest s2
  | Raise e s2 => Raise e s2
  | Blocked w s2 => Blocked w s2
  end.
Proof.
  intros Hw. cbn [listen_loop].
  cbv [bind the_websocket get_state of_option modify ret]. now rewrite Hw.
Qed.

(** [listen_for_responses] in terms of its loop. *)
Lemma listen_for_responses_eq (ws : WebSocket E) (s : state E) :
  websocket s = Some ws ->
  listen_for_responses E s =
  match listen_loop E (inbound ws) s with
  | Raise e s' =>
      Ret tt (with_connected false (with_log (log s' ++ [listen_end_record e]) s'))
  | r => r
  end.
Proof.
  intros Hw. unfold listen_for_responses, try_except.
  unfold bind at 1. unfold get_state. rewrite Hw.
  destruct (listen_loop E (inbound ws) s) as [a s'|e s'|w s']; try reflexivity.
  destruct e; reflexivity.
Qed.


(** One turn of the loop whose message raises an exception. *)
Lemma listen_for_responses_fails (ws : WebSocket E) (m : message E)
      (rest : list (ws_event E)) (what : string) (s : state E) :
  websocket s = Some ws ->
  inbound ws = Message m :: rest ->
  handle_message E m (with_websocket (Some (set_inbound ws rest)) s)
    = Raise (Exception what) (with_websocket (Some (set_inbound ws rest)) s) ->
  listen_for_responses E s =
  Ret tt (with_connected false
            (with_log (log s ++ [Log ERROR "Error listening for responses"])
               (with_websocket (Some (set_inbound ws rest)) s))).
Proof.
  intros Hw Hin Hm.
  rewrite (listen_for_responses_eq ws s Hw), Hin.
  rewrite (listen_loop_message ws m rest s Hw). now rewrite Hm.
Qed.

(** X7. How the receive loop ends besides exceptions.  On a client that
    holds no channel it logs an error, clears [connected] and returns.
    When the message iterator ends without raising (a normal closure) it
    returns with nothing logged and [connected] left as it was.  While no
    event is pending it stays suspended and nothing changes. *)
Theorem listen_for_responses_endings (s : state E) :
  (websocket s = None ->
   listen_for_responses E s =
   Ret tt (with_connected false
             (with_log (log s ++ [Log ERROR "Error listening for responses"]) s))) /\
  (forall ws rest,
     websocket s = Some ws -> inbound ws = CloseOK :: rest ->
     listen_for_responses E s =
     Ret tt (with_websocket (Some (set_inbound ws rest)) s)) /\
  (forall ws,
     websocket s = Some ws -> inbound ws = [] ->
     listen_for_responses E s = Blocked WaitRecv s).
Proof.
  destruct s as [w c oq q lg so]. cbn [websocket]. repeat split.
  - intros ->. reflexivity.
  - intros ws rest -> Hin. run. now rewrite Hin.
  - intros ws -> Hin. run. now rewrite Hin.
Qed.


(** X9. An audio message whose payload cannot be used ends the receive
    loop: when its [data] member is not a string, is not valid base64, or
    decodes to an odd number of bytes, an error is logged, [connected] is
    cleared, nothing is enqueued and the events that follow are left. *)
Theorem listen_stops_at_bad_audio (ws : WebSocket E) (m : message E)
        (rest : list (ws_event E)) (members : list (string * json)) (s : state E) :
  websocket s = Some ws ->
  inbound ws = Message m :: rest ->
  json_loads E m = Some (JObject members) ->
  eq_str (dict_get members "type") "audio" = true ->
  (exists v, dict_get members "data" = Some v /\
             match v with JString _ => False | _ => True end) \/
  (exists b64, dict_get members "data" = Some (JString b64) /\
               (b64decode E b64 = None \/
                exists bytes, b64decode E b64 = Some bytes /\
                              Nat.odd (List.length bytes) = true)) ->
  listen_for_responses E s =
  Ret tt (with_connected false
            (with_log (log s ++ [Log ERROR "Error listening for responses"])
               (with_websocket (Some (set_inbound ws rest)) s))).
Proof.
  intros Hw Hin Hm Ha Hbad.
  assert (Hraise : exists what, forall s1 : state E,
             handle_message E m s1 = Raise (Exception what) s1).
  { destruct Hbad as [(v & Hd & Hv)|(b64 & Hd & [Hb|(bytes & Hb & Hodd)])].
    - destruct v; try contradiction; eexists; intros s1; run;
        rewrite Hm; cbn; rewrite Ha; cbn; rewrite Hd; reflexivity.
    - eexists; intros s1; run.
      rewrite Hm; cbn; rewrite Ha; cbn; rewrite Hd; cbn. now rewrite Hb.
    - apply frombuffer_None_odd in Hodd.
      eexists; intros s1; run.
      rewrite Hm; cbn; rewrite Ha; cbn; rewrite Hd; cbn. rewrite Hb. cbn.
      now rewrite Hodd. }
  destruct Hraise as (what & Hraise).
  exact (listen_for_responses_fails ws m rest what s Hw Hin (Hraise _)).
Qed.

End ListenMore.

Lemma listen_for_responses_endings_witness :
  let ws := @mkWebSocket demo [CloseOK] [] [] false in
  let s := mkState (Some ws) true (Queue_init 50) (Queue_init 50) [] [] in
  listen_for_responses demo s = Ret tt (with_websocket (Some (set_inbound ws [])) s).
Proof.
  exact (proj1 (proj2 (listen_for_responses_endings demo
           (mkState (Some (@mkWebSocket demo [CloseOK] [] [] false)) true
                    (Queue_init 50) (Queue_init 50) [] [])))
           (@mkWebSocket demo [CloseOK] [] [] false) [] eq_refl eq_refl).
Defined.


Lemma listen_stops_at_bad_audio_witness :
  let m := parsed (JObject [("type", JString "audio"); ("data", JString "abc")]) in
  let ws := mkWebSocket [Message m; CloseOK] [] [] false in
  let s := mkState (Some ws) true (Queue_init 50) (Queue_init 50) [] [] in
  listen_for_responses demo s =
  Ret tt (with_connected false
            (with_log (log s ++ [Log ERROR "Error listening for responses"])
               (with_websocket (Some (set_inbound ws [CloseOK])) s))).
Proof.
  refine (listen_stops_at_bad_audio demo
            (mkWebSocket
               [Message (parsed (JObject [("type", JString "audio");
                                          ("data", JString "abc")])); CloseOK]
               [] [] false)
            (parsed (JObject [("type", JString "audio"); ("data", JString "abc")]))
            [CloseOK]
            [("type", JString "audio"); ("data", JString "abc")]
            (mkState
               (Some (mkWebSocket
                        [Message (parsed (JObject [("type", JString "audio");
                                                   ("data", JString "abc")])); CloseOK]
                        [] [] false))
               true (Queue_init 50) (Queue_init 50) [] [])
            eq_refl eq_refl eq_refl eq_refl _).
  right. exists "abc". split; [reflexivity|].
  right. eexists. split; reflexivity.
Defined.

(** ** Frames in order *)

Lemma not_full_with_room (q : Queue) (k : Z) :
  0 < k -> (maxsize q <= 0 \/ qsize q + k <= maxsize q) -> full q = false.
Proof.
  intros Hk Hroom. unfold full.
  destruct (Z.leb_spec (maxsize q) 0); [reflexivity|].
  destruct (Z.leb_spec (maxsize q) (qsize q)); [lia|reflexivity].
Qed.

Lemma len_cons {A} (x : A) (l : list A) : len (x :: l) = 1 + len l.
Proof. unfold len. cbn [List.length]. lia. Qed.

Section InOrder.

Variable E : Externals.

Lemma listen_loop_enqueues (rest : list (ws_event E)) (ms : list (message E))
      (fs : list frame) :
  Forall2 (converts E) ms fs ->
  forall (ws : WebSocket E) c oq q lg so,
    (maxsize oq <= 0 \/ qsize oq + len fs <= maxsize oq) ->
    listen_loop E (map Message ms ++ CloseOK :: rest) (mkState (Some ws) c oq q lg so)
    = Ret tt
        (mkState (Some (set_inbound ws rest)) c
           {| maxsize := maxsize oq; items := items oq ++ fs |} q
           (lg ++ repeat (Log DEBUG "Received samples from voice agent") (List.length fs))
           so).
Proof.
  induction 1 as [|m f ms fs (a & Hd & Hr) _ IH]; intros ws c oq q lg so Hroom.
  - cbn [map app listen_loop List.length repeat].
    cbv [bind the_websocket get_state of_option modify ret]. cbn.
    destruct oq as [n its]. cbn. now rewrite !app_nil_r.
  - cbn [map app].
    rewrite (listen_loop_message E ws m _ (mkState (Some ws) c oq q lg so) eq_refl).
    rewrite (handle_message_audio E m a f _ Hd Hr).
    unfold put. cbn [output_queue with_websocket].
    rewrite len_cons in Hroom. pose proof (len_nonneg fs) as Hfs.
    rewrite (not_full_with_room oq (1 + len fs)) by (assumption || lia).
    cbv [with_log with_output_queue with_websocket].
    cbn [websocket connected output_queue queue log stdout].
    rewrite IH.
    + destruct ws as [inb script out0 cl]. cbn [set_inbound send_script outbound closed].
      cbn [enqueue maxsize items List.length repeat].
      rewrite <- !app_assoc. reflexivity.
    + unfold qsize, enqueue in *. cbn [items maxsize].
      rewrite len_app. unfold len at 2. cbn [List.length]. lia.
Qed.

(** X10. Audio messages are enqueued in the order received: when the
    channel delivers audio messages that convert to the frames [fs] and
    then closes normally, and the output queue has room for them, the
    receive loop returns with exactly these frames appended to the queue in
    that order, one debug record per frame, and [connected] unchanged. *)
Theorem listen_enqueues_in_order (ws : WebSocket E) (ms : list (message E))
        (fs : list frame) (rest : list (ws_event E)) (s : state E) :
  websocket s = Some ws ->
  inbound ws = map Message ms ++ CloseOK :: rest ->
  Forall2 (converts E) ms fs ->
  (maxsize (output_queue s) <= 0 \/
   qsize (output_queue s) + len fs <= maxsize (output_queue s)) ->
  listen_for_responses E s =
  Ret tt
    (with_log
       (log s ++ repeat (Log DEBUG "Received samples from voice agent") (List.length fs))
       (with_output_queue
          {| maxsize := maxsize (output_queue s);
             items := items (output_queue s) ++ fs |}
          (with_websocket (Some (set_inbound ws rest)) s))).
Proof.
  intros Hw Hin Hconv Hroom.
  rewrite (listen_for_responses_eq E ws s Hw), Hin.
  destruct s as [w c oq q lg so]. cbn in Hw, Hroom. subst w.
  rewrite (listen_loop_enqueues rest ms fs Hconv ws c oq q lg so Hroom).
  reflexivity.
Qed.

Lemma send_audio_ready_ok (audio_data y : frame) inb out0 cl c oq q lg so :
  resample_int16 E audio_data
    (py_int_truediv (len audio_data * VOICE_AGENT_INPUT_RATE) SAMPLERATE) = Some y ->
  c = true ->
  send_audio E audio_data (mkState (Some (mkWebSocket inb [] out0 cl)) c oq q lg so)
  = Ret tt (mkState
              (Some (mkWebSocket inb [] (out0 ++ [json_dumps E (audio_envelope E y)]) cl))
              c oq q (lg ++ [Log DEBUG "Sent samples to voice agent"]) so).
Proof.
  intros Hr ->. run. cbn [negb orb]. cbn in Hr. rewrite Hr. reflexivity.
Qed.

Lemma queue_put_ok (audio_data : frame) (s : state E) :
  full (queue s) = false ->
  try_except E (queue_put E audio_data)
    (except_QueueFull E (logger E WARNING "Audio queue full, dropping frame")) s
  = Ret tt (with_queue (enqueue (queue s) audio_data) s).
Proof.
  intros Hfull. cbv [try_except queue_put bind get_state put modify].
  now rewrite Hfull.
Qed.

Lemma rtc_session_loop_cons (audio_data : frame) (frames : list frame) (n : Z)
      (s : state E) :
  rtc_session_loop E (audio_data :: frames) n s =
  let s0 := if (n + 1) mod 100 =? 0
            then with_log (log s ++ [Log DEBUG "Processed audio frames"]) s else s in
  match send_audio E audio_data s0 with
  | Ret _ s1 =>
      match try_except E (queue_put E audio_data)
              (except_QueueFull E (logger E WARNING "Audio queue full, dropping frame"))
              s1 with
      | Ret _ s2 => rtc_session_loop E frames (n + 1) s2
      | Raise e s2 => Raise e s2
      | Blocked w s2 => Blocked w s2
      end
  | Raise e s1 => Raise e s1
  | Blocked w s1 => Blocked w s1
  end.
Proof.
  cbn [rtc_session_loop]. cbv [bind].
  destruct ((n + 1) mod 100 =? 0); reflexivity.
Qed.

End InOrder.

Lemma listen_enqueues_in_order_witness :
  let ms := [audio_message [1; 2]; audio_message [3]] in
  let ws := @mkWebSocket demo (map (Message (E:=demo)) ms ++ [CloseOK]) [] [] false in
  let s := mkState (Some ws) true (Queue_init 50) (Queue_init 50) [] [] in
  listen_for_responses demo s =
  Ret tt
    (with_log
       (log s ++ repeat (Log DEBUG "Received samples from voice agent")
                        (List.length [[1; 1; 2; 2]; [3; 3]]))
       (with_output_queue
          {| maxsize := maxsize (output_queue s);
             items := items (output_queue s) ++ [[1; 1; 2; 2]; [3; 3]] |}
          (with_websocket (Some (set_inbound ws [])) s))).
Proof.
  refine (listen_enqueues_in_order demo
            (@mkWebSocket demo
               (map (Message (E:=demo)) [audio_message [1; 2]; audio_message [3]] ++ [CloseOK])
               [] [] false)
            [audio_message [1; 2]; audio_message [3]]
            [[1; 1; 2; 2]; [3; 3]] []
            (mkState
               (Some (@mkWebSocket demo
                        (map (Message (E:=demo)) [audio_message [1; 2]; audio_message [3]]
                         ++ [CloseOK]) [] [] false))
               true (Queue_init 50) (Queue_init 50) [] [])
            eq_refl eq_refl _ _).
  - repeat constructor; eexists; split; reflexivity.
  - right. vm_compute. discriminate.
Defined.

(** ** The frame loop of rtc_session, over many frames *)

Section FrameLoop.

Variable E : Externals.

(** A call of [send_audio] that cannot reach the voice agent: it returns,
    having sent nothing. *)
Lemma send_audio_unreachable (audio_data : frame) (k : nat) (s : state E) :
  unreachable (S k) s ->
  exists s',
    send_audio E audio_data s = Ret tt s' /\
    unreachable k s' /\
    sent s' = sent s /\
    connected s' = connected s /\
    queue s' = queue s /\
    output_queue s' = output_queue s /\
    channel_closed s' = channel_closed s /\
    warnings (log s') = warnings (log s).
Proof.
  unfold unreachable, sent, channel_closed.
  destruct s as [[[inb script out0 cl]|] [|] oq q lg so];
    cbn [websocket connected send_script outbound closed queue output_queue log];
    intros Hun; run; cbn [negb orb];
    try (eexists; split; [reflexivity|]; cbn; repeat split; auto; fail).
  destruct Hun as [Hun|[Hall Hlen]]; [discriminate|].
  destruct script as [|[e|] script]; cbn [List.length] in Hlen; [lia| |].
  2: { inversion Hall as [|o l Ho Hl]. now contradiction Ho. }
  inversion Hall as [|o l Ho Hl]; subst.
  destruct (resample_int16 E audio_data _); cbn;
    (eexists; split; [reflexivity|]); cbn; repeat split;
    try (now apply warnings_app_other);
    right; split; auto; cbn [List.length]; lia.
Qed.

Lemma rtc_session_loop_unreachable (frames : list frame) : forall (n : Z) (s : state E),
  (maxsize (queue s) <= 0 \/ qsize (queue s) + len frames <= maxsize (queue s)) ->
  unreachable (List.length frames) s ->
  exists s',
    rtc_session_loop E frames n s = Ret tt s' /\
    queue s' = {| maxsize := maxsize (queue s); items := items (queue s) ++ frames |} /\
    sent s' = sent s /\
    connected s' = connected s /\
    output_queue s' = output_queue s /\
    channel_closed s' = channel_closed s /\
    warnings (log s') = warnings (log s).
Proof.
  induction frames as [|a frames IH]; intros n s Hroom Hun.
  - exists s. cbn. destruct s as [w c oq [m its] lg so]. cbn.
    rewrite app_nil_r. repeat split; reflexivity.
  - rewrite rtc_session_loop_cons. cbv zeta.
    set (s0 := if (n + 1) mod 100 =? 0
               then with_log (log s ++ [Log DEBUG "Processed audio frames"]) s else s).
    assert (H0 : queue s0 = queue s /\ connected s0 = connected s /\
                 output_queue s0 = output_queue s /\ sent s0 = sent s /\
                 channel_closed s0 = channel_closed s /\
                 warnings (log s0) = warnings (log s) /\
                 unreachable (S (List.length frames)) s0).
    { unfold s0. destruct ((n + 1) mod 100 =? 0); repeat split; try reflexivity;
        try exact Hun.
      cbn [log with_log]. now apply warnings_app_other. }
    destruct H0 as (Hq0 & Hc0 & Ho0 & Hs0 & Hk0 & Hl0 & Hun0).
    destruct (send_audio_unreachable a (List.length frames) s0 Hun0)
      as (s1 & H1 & Hun1 & Hs1 & Hc1 & Hq1 & Ho1 & Hk1 & Hl1).
    rewrite H1. rewrite len_cons in Hroom. pose proof (len_nonneg frames) as Hf.
    rewrite queue_put_ok
      by (rewrite Hq1, Hq0; apply (not_full_with_room _ (1 + len frames)); assumption || lia).
    destruct (IH (n + 1) (with_queue (enqueue (queue s1) a) s1))
      as (s' & Hrun & Hq' & Hs' & Hc' & Ho' & Hk' & Hl').
    { cbn [queue with_queue]. rewrite Hq1, Hq0. unfold qsize, enqueue in *.
      cbn [items maxsize]. rewrite len_app. unfold len at 2. cbn [List.length]. lia. }
    { exact Hun1. }
    exists s'. split; [exact Hrun|].
    cbn [queue with_queue connected output_queue stdout log] in *.
    repeat split.
    + rewrite Hq', Hq1, Hq0. cbn [enqueue maxsize items]. now rewrite <- app_assoc.
    + rewrite Hs'. unfold sent in *. cbn [websocket with_queue]. congruence.
    + congruence.
    + congruence.
    + rewrite Hk'. unfold channel_closed in *. cbn [websocket with_queue]. congruence.
    + congruence.
Qed.

(** X11. The local monitor queue is fed although nothing reaches the
    voice agent: when the client is not ready (not connected, or without a
    channel), or when every send the loop attempts raises, and the queue
    has room for the frames, the frame loop of [rtc_session] returns
    normally with all the frames appended to the queue, unmodified and in
    order.  It sends no message, records no warning, leaves [connected],
    the output queue and the open/closed status of the channel as they
    were, and ends with the cleanup record. *)
Theorem rtc_session_feeds_monitor (frames : list frame) (s : state E) :
  (maxsize (queue s) <= 0 \/ qsize (queue s) + len frames <= maxsize (queue s)) ->
  unreachable (List.length frames) s ->
  exists s' lg,
    rtc_session_stream E frames s = Ret tt s' /\
    queue s' = {| maxsize := maxsize (queue s); items := items (queue s) ++ frames |} /\
    sent s' = sent s /\
    connected s' = connected s /\
    output_queue s' = output_queue s /\
    channel_closed s' = channel_closed s /\
    warnings (log s') = warnings (log s) /\
    log s' = lg ++ [Log INFO "Cleaning up audio stream..."].
Proof.
  intros Hroom Hun. unfold rtc_session_stream.
  set (s0 := with_log (log s ++ [Log INFO "Starting audio processing with voice agent..."]) s).
  destruct (rtc_session_loop_unreachable frames 0 s0 Hroom Hun)
    as (s' & Hrun & Hq & Hs & Hc & Ho & Hk & Hl).
  cbv [bind logger modify try_finally try_except ret]. fold s0. rewrite Hrun.
  eexists _, (log s'). split; [reflexivity|].
  cbn [queue connected output_queue log with_log]. unfold channel_closed, sent in *.
  cbn [websocket with_log] in *.
  repeat split; try assumption.
  rewrite warnings_app_other by reflexivity. rewrite Hl. unfold s0. cbn [log with_log].
  now apply warnings_app_other.
Qed.

Lemma rtc_session_loop_relays (frames ys : list frame) :
  Forall2 (fun a y =>
             resample_int16 E a
               (py_int_truediv (len a * VOICE_AGENT_INPUT_RATE) SAMPLERATE) = Some y)
          frames ys ->
  forall (n : Z) inb out0 cl oq q lg so,
    (maxsize q <= 0 \/ qsize q + len frames <= maxsize q) ->
    exists lg',
      rtc_session_loop E frames n
        (mkState (Some (mkWebSocket inb [] out0 cl)) true oq q lg so)
      = Ret tt
          (mkState
             (Some (mkWebSocket inb []
                      (out0 ++ map (fun y => json_dumps E (audio_envelope E y)) ys) cl))
             true oq {| maxsize := maxsize q; items := items q ++ frames |} lg' so).
Proof.
  induction 1 as [|a y frames ys Hr _ IH]; intros n inb out0 cl oq q lg so Hroom.
  - exists lg. cbn. destruct q as [m its]. cbn. now rewrite !app_nil_r.
  - rewrite rtc_session_loop_cons. cbv zeta.
    rewrite len_cons in Hroom. pose proof (len_nonneg frames) as Hf.
    assert (Hfull : full q = false)
      by (apply (not_full_with_room _ (1 + len frames)); assumption || lia).
    assert (Hroom' : maxsize (enqueue q a) <= 0 \/
                     qsize (enqueue q a) + len frames <= maxsize (enqueue q a)).
    { unfold qsize, enqueue in *. cbn [items maxsize].
      rewrite len_app. unfold len at 2. cbn [List.length]. lia. }
    destruct ((n + 1) mod 100 =? 0); cbv [with_log]; cbn [websocket connected
      output_queue queue log stdout];
      rewrite (send_audio_ready_ok E a y _ _ _ _ _ _ _ _ Hr eq_refl);
      rewrite queue_put_ok by exact Hfull;
      cbv [with_queue]; cbn [websocket connected output_queue queue log stdout];
      (destruct (IH (n + 1) inb (out0 ++ [json_dumps E (audio_envelope E y)]) cl oq
                    (enqueue q a) (lg ++ [Log DEBUG "Processed audio frames"]
                                      ++ [Log DEBUG "Sent samples to voice agent"]) so Hroom')
         as (lgA & HA);
       destruct (IH (n + 1) inb (out0 ++ [json_dumps E (audio_envelope E y)]) cl oq
                    (enqueue q a) (lg ++ [Log DEBUG "Sent samples to voice agent"]) so Hroom')
         as (lgB & HB)).
    + exists lgA. rewrite <- app_assoc in HA |- *. rewrite HA.
      cbn [enqueue maxsize items map]. now rewrite <- !app_assoc.
    + exists lgB. rewrite HB.
      cbn [enqueue maxsize items map]. now rewrite <- !app_assoc.
Qed.

(** X12. With a ready client, a channel that accepts every send and a
    monitor queue with room, the frame loop relays each frame once and in
    order: the channel receives one audio envelope per frame, carrying that
    frame's resampled samples, in the order of the frames, and the monitor
    queue receives the original frames in the same order. *)
Theorem rtc_session_relays_in_order (frames ys : list frame) (ws : WebSocket E)
        (s : state E) :
  connected s = true ->
  websocket s = Some ws ->
  send_script ws = [] ->
  Forall2 (fun a y =>
             resample_int16 E a
               (py_int_truediv (len a * VOICE_AGENT_INPUT_RATE) SAMPLERATE) = Some y)
          frames ys ->
  (maxsize (queue s) <= 0 \/ qsize (queue s) + len frames <= maxsize (queue s)) ->
  exists s',
    rtc_session_stream E frames s = Ret tt s' /\
    websocket s' =
      Some (mkWebSocket (inbound ws) []
              (outbound ws ++ map (fun y => json_dumps E (audio_envelope E y)) ys)
              (closed ws)) /\
    queue s' = {| maxsize := maxsize (queue s); items := items (queue s) ++ frames |} /\
    connected s' = true.
Proof.
  intros Hc Hw Hs Hall Hroom.
  destruct s as [w c oq q lg so]. cbn in Hc, Hw, Hroom. subst w c.
  destruct ws as [inb script out0 cl]. cbn in Hs. subst script.
  unfold rtc_session_stream.
  cbv [bind logger modify try_finally try_except ret with_log].
  cbn [websocket connected output_queue queue log stdout].
  destruct (rtc_session_loop_relays frames ys Hall 0 inb out0 cl oq q
              (lg ++ [Log INFO "Starting audio processing with voice agent..."]) so Hroom)
    as (lg' & Hrun).
  rewrite Hrun. eexists. split; [reflexivity|].
  cbn. repeat split.
Qed.

End FrameLoop.

Lemma rtc_session_feeds_monitor_witness :
  let ws := @mkWebSocket demo [] [Some ConnectionClosed; Some ConnectionClosed] [] false in
  let s := mkState (Some ws) true (Queue_init 50) (Queue_init 50) [] [] in
  exists s' lg,
    rtc_session_stream demo [[1; 2; 3]; [4; 5; 6]] s = Ret tt s' /\
    queue s' = {| maxsize := maxsize (queue s);
                  items := items (queue s) ++ [[1; 2; 3]; [4; 5; 6]] |} /\
    sent s' = sent s /\
    connected s' = connected s /\
    output_queue s' = output_queue s /\
    channel_closed s' = channel_closed s /\
    warnings (log s') = warnings (log s) /\
    log s' = lg ++ [Log INFO "Cleaning up audio stream..."].
Proof.
  apply (rtc_session_feeds_monitor demo [[1; 2; 3]; [4; 5; 6]]
           (mkState
              (Some (@mkWebSocket demo []
                       [Some ConnectionClosed; Some ConnectionClosed] [] false))
              true (Queue_init 50) (Queue_init 50) [] [])).
  - right. vm_compute. discriminate.
  - right. cbn. split; [repeat constructor; discriminate | lia].
Defined.

Lemma rtc_session_relays_in_order_witness :
  let ws := @mkWebSocket demo [] [] [] false in
  let s := mkState (Some ws) true (Queue_init 50) (Queue_init 50) [] [] in
  exists s',
    rtc_session_stream demo [[1; 2; 3]; [4; 5; 6]] s = Ret tt s' /\
    websocket s' =
      Some (mkWebSocket (inbound ws) []
              (outbound ws ++ map (fun y => json_dumps demo (audio_envelope demo y))
                                  [[1]; [4]])
              (closed ws)) /\
    queue s' = {| maxsize := maxsize (queue s);
                  items := items (queue s) ++ [[1; 2; 3]; [4; 5; 6]] |} /\
    connected s' = true.
Proof.
  apply (rtc_session_relays_in_order demo [[1; 2; 3]; [4; 5; 6]] [[1]; [4]]
           (@mkWebSocket demo [] [] [] false)
           (mkState (Some (@mkWebSocket demo [] [] [] false)) true
                    (Queue_init 50) (Queue_init 50) [] [])).
  - reflexivity.
  - reflexivity.
  - reflexivity.
  - repeat constructor.
  - right. vm_compute. discriminate.
Defined.

(** ** Waiting for a participant *)

Lemma wait_for_participants_from (remote : nat -> Z) : forall (fuel k : nat) lg,
  (k <= 30)%nat -> (31 - k <= fuel)%nat ->
  (forall j, (j < k)%nat -> remote j = 0) ->
  exists outcome waited lg',
    wait_for_participants fuel remote k (Z.of_nat k) lg = Some (outcome, waited, lg') /\
    (outcome = NoParticipants <-> forall j, (j <= 30)%nat -> remote j = 0) /\
    (outcome = NoParticipants ->
     waited = 31 /\
     exists l0, lg' = l0 ++ [Log WARNING "No participants joined after 30 seconds"]) /\
    (outcome = ParticipantsFound ->
     0 <= waited <= 30 /\ remote (Z.to_nat waited) <> 0 /\
     forall j, (j < Z.to_nat waited)%nat -> remote j = 0).
Proof.
  induction fuel as [|fuel IH]; intros k lg Hk Hfuel Hzero; [lia|].
  cbn [wait_for_participants].
  destruct (Z.eqb_spec (remote k) 0) as [Hr|Hr].
  - destruct (Z.ltb_spec 30 (Z.of_nat k + 1)) as [Hlast|Hmore].
    + assert (k = 30%nat) by lia. subst k.
      eexists _, _, _. split; [reflexivity|]. repeat split; try discriminate.
      * intros _ j Hj. destruct (Nat.eq_dec j 30); [now subst j|apply Hzero; lia].
      * eexists. reflexivity.
    + replace (Z.of_nat k + 1) with (Z.of_nat (S k)) by lia.
      apply IH; try lia.
      intros j Hj. destruct (Nat.eq_dec j k); [now subst j|apply Hzero; lia].
  - eexists _, _, _. split; [reflexivity|]. repeat split; try discriminate; try lia.
    + intros Hall. exfalso. apply Hr, Hall. exact Hk.
    + now rewrite Nat2Z.id.
    + rewrite Nat2Z.id. exact Hzero.
Qed.

(** X13. The wait for a participant is bounded: for every evolution of
    the room, the loop settles within 31 tests.  It gives up, after
    exactly 31 sleeps of one second and with a warning, exactly when the
    room is empty at each of the 31 tests; otherwise it goes on as soon as
    a test finds a participant, having slept one second per earlier test. *)
Theorem participant_wait_is_bounded (remote : nat -> Z) (fuel : nat) :
  (31 <= fuel)%nat ->
  exists outcome waited lg,
    wait_for_participants fuel remote 0 0 [] = Some (outcome, waited, lg) /\
    (outcome = NoParticipants <-> forall j, (j <= 30)%nat -> remote j = 0) /\
    (outcome = NoParticipants ->
     waited = 31 /\
     exists l0, lg = l0 ++ [Log WARNING "No participants joined after 30 seconds"]) /\
    (outcome = ParticipantsFound ->
     0 <= waited <= 30 /\ remote (Z.to_nat waited) <> 0 /\
     forall j, (j < Z.to_nat waited)%nat -> remote j = 0).
Proof.
  intros Hfuel.
  apply (wait_for_participants_from remote fuel 0 []); try lia.
Qed.

Lemma participant_wait_is_bounded_witness :
  exists outcome waited lg,
    wait_for_participants 31 (fun k => if (k <? 3)%nat then 0 else 2) 0 0 []
      = Some (outcome, waited, lg) /\
    (outcome = NoParticipants <->
     forall j, (j <= 30)%nat -> (if (j <? 3)%nat then 0 else 2) = 0) /\
    (outcome = NoParticipants ->
     waited = 31 /\
     exists l0, lg = l0 ++ [Log WARNING "No participants joined after 30 seconds"]) /\
    (outcome = ParticipantsFound ->
     0 <= waited <= 30 /\ (if (Z.to_nat waited <? 3)%nat then 0 else 2) <> 0 /\
     forall j, (j < Z.to_nat waited)%nat -> (if (j <? 3)%nat then 0 else 2) = 0).
Proof.
  apply (participant_wait_is_bounded (fun k => if (k <? 3)%nat then 0 else 2) 31).
  lia.
Defined.

Example participant_wait_ex :
  option_map (fun r => fst r) (wait_for_participants 31 (fun _ => 0) 0 0 [])
  = Some (NoParticipants, 31).
Proof. reflexivity. Qed.

(** ** Looking for the audio track *)

Lemma scan_publications_find (pubs : list (string * publication)) :
  forall (found : option string) lg,
    fst (scan_publications pubs found lg) =
    match find (fun sp => is_audio (kind (snd sp)) && subscribed (snd sp)) pubs with
    | Some sp => track (snd sp)
    | None => found
    end.
Proof.
  induction pubs as [|[sid pub] pubs IH]; intros found lg; [reflexivity|].
  cbn [scan_publications find snd].
  destruct (is_audio (kind pub) && subscribed pub); [reflexivity|apply IH].
Qed.

Lemma scan_participants_first (ps : list (string * participant)) : forall lg,
  fst (scan_participants ps None lg) = first_track ps.
Proof.
  induction ps as [|[sid p] ps IH]; intros lg; [reflexivity|].
  cbn [scan_participants first_track snd].
  pose proof (scan_publications_find (track_publications p) None
                (lg ++ [Log INFO "Checking participant"; Log INFO "Track publications"]))
    as Hscan.
  destruct (scan_publications (track_publications p) None _) as [found lg1].
  cbn [fst] in Hscan. fold (first_audio_track p) in Hscan. rewrite <- Hscan.
  destruct found; [reflexivity|apply IH].
Qed.

Lemma find_track_from (room : nat -> list (string * participant)) :
  forall (fuel k : nat) lg,
    (forall j, (k <= j < k + fuel)%nat -> first_track (room j) = None) ->
    find_track fuel room k (2 * Z.of_nat k) lg = None.
Proof.
  induction fuel as [|fuel IH]; intros k lg Hnone; [reflexivity|].
  cbn [find_track].
  pose proof (scan_participants_first (room k) lg) as Hscan.
  destruct (scan_participants (room k) None lg) as [found lg1]. cbn [fst] in Hscan.
  rewrite Hnone in Hscan by lia. subst found.
  replace (2 * Z.of_nat k + 2) with (2 * Z.of_nat (S k)) by lia.
  apply IH. intros j Hj. apply Hnone. lia.
Qed.

Lemma find_track_at (room : nat -> list (string * participant)) (t : string) :
  forall (d k fuel : nat) lg,
    (forall j, (k <= j < k + d)%nat -> first_track (room j) = None) ->
    first_track (room (k + d)%nat) = Some t ->
    (d < fuel)%nat ->
    exists lg', find_track fuel room k (2 * Z.of_nat k) lg
                = Some (t, 2 * Z.of_nat (k + d)%nat, lg').
Proof.
  induction d as [|d IH]; intros k fuel lg Hnone Hsome Hfuel;
    (destruct fuel as [|fuel]; [lia|]); cbn [find_track];
    pose proof (scan_participants_first (room k) lg) as Hscan;
    destruct (scan_participants (room k) None lg) as [found lg1]; cbn [fst] in Hscan.
  - rewrite Nat.add_0_r in *. rewrite Hsome in Hscan. subst found. eauto.
  - rewrite Hnone in Hscan by lia. subst found.
    replace (2 * Z.of_nat k + 2) with (2 * Z.of_nat (S k)) by lia.
    replace (k + S d)%nat with (S k + d)%nat in * by lia.
    apply IH; try lia; try assumption.
    intros j Hj. apply Hnone. lia.
Qed.

(** X14. The search for the audio track has no time limit and takes the
    first candidate: a pass over the room yields the track of the first
    participant whose first subscribed audio publication carries a track
    (later publications of a participant are not looked at).  When the
    [n]-th pass is the first to yield a track, the loop returns that track
    after sleeping two seconds for each earlier pass, and the track belongs
    to a subscribed audio publication; however many passes yield nothing,
    the loop is still searching. *)
Theorem find_track_first_candidate (room : nat -> list (string * participant))
        (fuel : nat) :
  (forall n t,
     (forall j, (j < n)%nat -> first_track (room j) = None) ->
     first_track (room n) = Some t ->
     (n < fuel)%nat ->
     (exists lg, find_track fuel room 0 0 [] = Some (t, 2 * Z.of_nat n, lg)) /\
     exists sid p tsid pub,
       In (sid, p) (room n) /\ In (tsid, pub) (track_publications p) /\
       kind pub = KIND_AUDIO /\ subscribed pub = true /\ track pub = Some t) /\
  ((forall j, (j < fuel)%nat -> first_track (room j) = None) ->
   find_track fuel room 0 0 [] = None).
Proof.
  split.
  - intros n t Hnone Hsome Hfuel. split.
    + apply (find_track_at room t n 0 fuel []); try assumption.
      intros j Hj. apply Hnone. lia.
    + clear Hnone Hfuel. induction (room n) as [|[sid p] ps IH]; [discriminate|].
      cbn [first_track snd] in Hsome.
      destruct (first_audio_track p) as [t'|] eqn:Hp.
      * injection Hsome as ->. unfold first_audio_track in Hp.
        destruct (find _ (track_publications p)) as [[tsid pub]|] eqn:Hfind;
          [|discriminate].
        apply find_some in Hfind. destruct Hfind as [Hin Hmatch].
        cbn [snd] in *. apply andb_prop in Hmatch. destruct Hmatch as [Hk Hsub].
        exists sid, p, tsid, pub. repeat split; try assumption.
        -- now left.
        -- destruct (kind pub); try discriminate; reflexivity.
      * destruct (IH Hsome) as (sid' & p' & tsid & pub & Hin & Hrest).
        exists sid', p', tsid, pub. split; [now right|exact Hrest].
  - intros Hnone. apply (find_track_from room fuel 0 []).
    intros j Hj. apply Hnone. lia.
Qed.

Example find_track_ex :
  let muted_video := mkPublication KIND_VIDEO true false (Some "TR_video") in
  let pending := mkPublication KIND_AUDIO false false None in
  let audio := mkPublication KIND_AUDIO true false (Some "TR_audio") in
  let alice := mkParticipant "alice" [("TR_video", muted_video); ("TR_a0", pending)] in
  let bob := mkParticipant "bob" [("TR_audio", audio)] in
  option_map (fun r => fst r)
    (find_track 5 (fun k => if (k <? 2)%nat then [("PA_1", alice)]
                            else [("PA_1", alice); ("PA_2", bob)]) 0 0 [])
  = Some ("TR_audio", 4).
Proof. reflexivity. Qed.

(** ** audio_publisher *)

Lemma len_tobytes (a : frame) : len (tobytes a) = 2 * len a.
Proof.
  induction a as [|z a IH]; [reflexivity|].
  cbn [tobytes flat_map]. fold (tobytes a).
  rewrite len_app, IH, !len_cons. change (len (@nil Z)) with 0. lia.
Qed.

Lemma publisher_loop_all (its : list frame) : forall captures captured lg,
  Forall (fun c => c = None) captures ->
  exists lg',
    publisher_loop its captures captured lg
    = (captured ++ map frame_of its, [], lg', AwaitsFrame).
Proof.
  induction its as [|a its IH]; intros captures captured lg Hok.
  - exists lg. cbn. now rewrite app_nil_r.
  - assert (Htl : Forall (fun c => c = None) (tl captures))
      by (destruct Hok; [constructor|assumption]).
    destruct (IH (tl captures) (captured ++ [frame_of a])
                 (lg ++ [Log DEBUG "Published samples to LiveKit"]) Htl) as (lg' & Hrun).
    exists lg'. destruct Hok as [|c captures Hc Hok]; [|subst c];
      cbn [publisher_loop tl] in *; fold (frame_of a); rewrite Hrun;
      cbn [map]; now rewrite <- app_assoc.
Qed.

Lemma publisher_loop_fails (e : exn) (later : list (option exn)) :
  forall (k : nat) (its : list frame) captured lg,
    (k < List.length its)%nat ->
    exists lg',
      publisher_loop its (repeat None k ++ Some e :: later) captured lg
      = (captured ++ map frame_of (firstn k its), skipn (S k) its,
         lg' ++ [Log ERROR "Error in audio publisher"], Returns e).
Proof.
  induction k as [|k IH]; intros its captured lg Hk;
    (destruct its as [|a its]; [cbn in Hk; lia|]); cbn [publisher_loop repeat app].
  - exists lg. cbn. now rewrite app_nil_r.
  - fold (frame_of a). cbn [tl].
    destruct (IH its (captured ++ [frame_of a])
                 (lg ++ [Log DEBUG "Published samples to LiveKit"])) as (lg' & Hrun).
    { cbn in Hk. lia. }
    exists lg'. rewrite Hrun. cbn [firstn map skipn]. now rewrite <- app_assoc.
Qed.

Lemma publisher_loop_end (its : list frame) : forall captures captured lg,
  snd (publisher_loop its captures captured lg) = AwaitsFrame \/
  exists e, snd (publisher_loop its captures captured lg) = Returns e /\
            In (Some e) captures.
Proof.
  induction its as [|a its IH]; intros captures captured lg; [now left|].
  cbn [publisher_loop]. destruct captures as [|[e|] captures]; cbn [tl snd].
  - destruct (IH [] (captured ++ [{| data := tobytes a; sample_rate := SAMPLERATE;
                                     num_channels := CHANNELS;
                                     samples_per_channel := len a |}])
                 (lg ++ [Log DEBUG "Published samples to LiveKit"]))
      as [H|(e & _ & [])]; now left.
  - right. exists e. split; [reflexivity|now left].
  - destruct (IH captures (captured ++ [{| data := tobytes a; sample_rate := SAMPLERATE;
                                           num_channels := CHANNELS;
                                           samples_per_channel := len a |}])
                 (lg ++ [Log DEBUG "Published samples to LiveKit"]))
      as [H|(e & H & Hin)]; [now left|].
    right. exists e. split; [exact H|now right].
Qed.

(** X15. While every capture succeeds the publisher republishes the queued
    frames in order, one frame per queue item, each at 48000 Hz, mono, with
    as many samples per channel as the item has samples and two bytes per
    sample; it empties the queue and is then suspended awaiting the next
    frame.  When the capture of the frame at position [k] raises, the
    earlier frames have been published, that frame is lost (taken from the
    queue, not published), the error is logged and the coroutine returns,
    leaving the later frames in the queue.  When [publish_track] raises,
    the exception propagates to the caller and nothing is taken from the
    queue.  Once the track is published, the coroutine returns only after
    a capture has raised: the loop has no other exit. *)
Theorem audio_publisher_republishes (q : Queue) (captures : list (option exn)) :
  (Forall (fun c => c = None) captures ->
   exists lg,
     audio_publisher None q captures
     = (map frame_of (items q), {| maxsize := maxsize q; items := [] |}, lg,
        AwaitsFrame)) /\
  (forall k e later,
     captures = repeat None k ++ Some e :: later ->
     (k < List.length (items q))%nat ->
     exists lg,
       audio_publisher None q captures
       = (map frame_of (firstn k (items q)),
          {| maxsize := maxsize q; items := skipn (S k) (items q) |},
          lg ++ [Log ERROR "Error in audio publisher"], Returns e)) /\
  (forall e,
     audio_publisher (Some e) q captures
     = ([], q, [Log INFO "Starting audio publisher for voice agent responses..."],
        Propagates e)) /\
  (forall audio_data,
     sample_rate (frame_of audio_data) = 48000 /\
     num_channels (frame_of audio_data) = 1 /\
     samples_per_channel (frame_of audio_data) = len audio_data /\
     len (data (frame_of audio_data))
     = 2 * num_channels (frame_of audio_data) * samples_per_channel (frame_of audio_data)) /\
  (snd (audio_publisher None q captures) = AwaitsFrame \/
   exists e, snd (audio_publisher None q captures) = Returns e /\
             In (Some e) captures).
Proof.
  split; [|split; [|split; [|split]]].
  - intros Hok. unfold audio_publisher.
    destruct (publisher_loop_all (items q) captures []
                ([Log INFO "Starting audio publisher for voice agent responses..."]
                 ++ [Log INFO "Voice agent response track published"]) Hok)
      as (lg' & Hrun).
    rewrite Hrun. eauto.
  - intros k e later -> Hk. unfold audio_publisher.
    destruct (publisher_loop_fails e later k (items q) []
                ([Log INFO "Starting audio publisher for voice agent responses..."]
                 ++ [Log INFO "Voice agent response track published"]) Hk)
      as (lg' & Hrun).
    rewrite Hrun. eauto.
  - reflexivity.
  - intros audio_data. cbn [frame_of data num_channels samples_per_channel sample_rate].
    rewrite len_tobytes. unfold CHANNELS, SAMPLERATE. repeat split; lia.
  - unfold audio_publisher.
    pose proof (publisher_loop_end (items q) captures []
                  ([Log INFO "Starting audio publisher for voice agent responses..."]
                   ++ [Log INFO "Voice agent response track published"])) as Hend.
    destruct (publisher_loop (items q) captures [] _) as [[[captured remaining] lg] how].
    exact Hend.
Qed.

Lemma audio_publisher_republishes_witness :
  exists lg,
    audio_publisher None {| maxsize := 50; items := [[1; 2]; [3]; [4; 5]] |}
                    [None; Some ConnectionClosed]
    = (map frame_of (firstn 1 [[1; 2]; [3]; [4; 5]]),
       {| maxsize := 50; items := skipn 2 [[1; 2]; [3]; [4; 5]] |},
       lg ++ [Log ERROR "Error in audio publisher"], Returns ConnectionClosed).
Proof.
  apply (proj1 (proj2 (audio_publisher_republishes
                         {| maxsize := 50; items := [[1; 2]; [3]; [4; 5]] |}
                         [None; Some ConnectionClosed]))
               1%nat ConnectionClosed []); [reflexivity | cbn; lia].
Defined.

Lemma find_track_first_candidate_witness :
  let audio := mkPublication KIND_AUDIO true false (Some "TR_audio") in
  let bob := mkParticipant "bob" [("TR_audio", audio)] in
  let room := fun k : nat => if (k <? 2)%nat then [] else [("PA_2", bob)] in
  exists lg, find_track 5 room 0 0 [] = Some ("TR_audio", 2 * Z.of_nat 2, lg).
Proof.
  refine (proj1 (proj1 (find_track_first_candidate
                          (fun k : nat =>
                             if (k <? 2)%nat then []
                             else [("PA_2",
                                    mkParticipant "bob"
                                      [("TR_audio",
                                        mkPublication KIND_AUDIO true false
                                                      (Some "TR_audio"))])]) 5)
                       2%nat "TR_audio" _ eq_refl _)).
  - intros [|[|j]] Hj; try reflexivity. lia.
  - lia.
Defined.

(** ** Disconnecting, and connecting again *)

Section Lifecycle.

Variable E : Externals.

(** X16. [disconnect] never raises and is idempotent: it clears
    [connected], closes the channel when there is one (and calls nothing on
    a client that has none), and a second call changes nothing more.
    After it [send_audio] sends nothing. *)
Theorem disconnect_idempotent (s : state E) :
  exists s1,
    disconnect E s = Ret tt s1 /\
    connected s1 = false /\
    (websocket s = None -> s1 = with_connected false s) /\
    (forall ws, websocket s = Some ws ->
       websocket s1
       = Some (mkWebSocket (inbound ws) (send_script ws) (outbound ws) true)) /\
    disconnect E s1 = Ret tt s1 /\
    (forall audio_data, send_audio E audio_data s1 = Ret tt s1).
Proof.
  destruct s as [[[inb script out0 cl]|] c oq q lg so].
  - eexists. split; [reflexivity|]. cbn. repeat split; try discriminate.
    intros ws [= <-]. reflexivity.
  - eexists. split; [reflexivity|]. cbn. repeat split; discriminate.
Qed.


End Lifecycle.

